(** * write.ts: history store, regression detector and publish coordinator

    A shallow embedding of [src/write.ts] and the properties of it that the
    specification states.

    - JavaScript numbers are IEEE 754 binary64 values: they are the kernel's
      primitive floats, so [/] and [>] below are the operations the program
      runs.
    - A JavaScript string is a sequence of code units; [string] stands for it,
      one character per code unit.
    - [BenchmarkEntries] is an object used as a map from suite names to
      arrays: a [gmap] holds the object's own properties, and reading a
      property goes on to [Object.prototype] for a name the object does not
      have itself.
    - The asynchronous functions run one [await] after the other on a single
      thread, so they are computations in a state and exception monad over the
      file tree and the list of collaborator calls made so far.
    - Calls to [core.debug], [core.warning] and [console.log] only print; they
      are left out. *)

From Stdlib Require Import Floats.
From stdpp Require Import base option list strings gmap.

Set Default Proof Using "Type".


(** ** JavaScript string primitives used by the program *)

Module Js.

(** [s.slice(n)] for [n >= 0]: the code units from index [n] on, empty when
    [n] is past the end. *)
Fixpoint slice (n : nat) (s : string) : string :=
  match n, s with
  | O, _ => s
  | S _, EmptyString => EmptyString
  | S n', String _ s' => slice n' s'
  end.

(** [s.startsWith(p)]. *)
Fixpoint startsWith (p s : string) : bool :=
  match p, s with
  | EmptyString, _ => true
  | String _ _, EmptyString => false
  | String a p', String b s' => bool_decide (a = b) && startsWith p' s'
  end.

(** [s.includes(p)]: [p] occurs in [s] at some index. *)
Fixpoint includes (p s : string) : bool :=
  startsWith p s ||
  match s with
  | EmptyString => false
  | String _ s' => includes p s'
  end.

(** [xs.join(sep)]. *)
Fixpoint join (sep : string) (xs : list string) : string :=
  match xs with
  | [] => ""
  | [x] => x
  | x :: xs' => x +:+ sep +:+ join sep xs'
  end.

End Js.

(** ** Data model ([extract.ts], [config.ts]) *)

Abbreviation number := float.

(** [ToolType] of [config.ts]. *)
Inductive ToolType := cargo | go | benchmarkjs | pytest.

Module BenchmarkResult.
(** Modelled from the spec: the declaration of [BenchmarkResult] is in
    [extract.ts]; a Measurement has a name, a numeric value, a unit and an
    optional display-only range. *)
Record t := {
  name : string;
  value : number;
  unit : string;
  range : option string;
}.
End BenchmarkResult.

Module Commit.
(** Modelled from the spec: the commit of an Entry has at least an id; the
    other metadata is passed through opaquely. *)
Record t := {
  id : string;
  url : string;
}.
End Commit.

Module Benchmark.
(** Modelled from the spec: the declaration of [Benchmark] is in
    [extract.ts]; an Entry has a commit, a tool and an ordered sequence of
    measurements. *)
Record t := {
  commit : Commit.t;
  tool : ToolType;
  benches : list BenchmarkResult.t;
}.
End Benchmark.

Abbreviation BenchmarkEntries := (gmap string (list Benchmark.t)).

Module DataJson.
Record t := {
  lastUpdate : number;
  repoUrl : string;
  entries : BenchmarkEntries;
}.
End DataJson.

Module Config.
(** Modelled from the spec: the declaration of [Config] is in [config.ts];
    these are the options [writeBenchmark] destructures. *)
Record t := {
  name : string;
  tool : ToolType;
  ghPagesBranch : string;
  benchmarkDataDirPath : string;
  githubToken : option string;
  autoPush : bool;
  skipFetchGhPages : bool;
  commentOnAlert : bool;
  alertThreshold : number;
  failOnAlert : bool;
  alertCommentCcUsers : list string;
}.
End Config.

Module Repository.
(** [github.context.payload.repository], as far as the program reads it. *)
Record t := {
  html_url : string;
  private : bool;
  owner_login : string;
  name : string;
}.
End Repository.

Module Alert.
Record t := {
  current : BenchmarkResult.t;
  prev : BenchmarkResult.t;
  ratio : number;
}.
End Alert.

Definition SCRIPT_PREFIX : string := "window.BENCHMARK_DATA = ".

(** The literal of the [catch] branch of [loadDataJson]. *)
Definition emptyDataJson : DataJson.t :=
  {| DataJson.lastUpdate := 0%float;
     DataJson.repoUrl := "";
     DataJson.entries := ∅ |}.

(** A [string | undefined] value used as a condition: the string when it is
    truthy, that is defined and not empty. *)
Definition truthy (s : option string) : option string :=
  match s with
  | Some EmptyString => None
  | Some (String _ _ as v) => Some v
  | None => None
  end.

(** [a > b] on numbers: false as soon as one side is NaN. *)
Definition gt (a b : number) : bool := PrimFloat.ltb b a.

(** ** Regression detector *)

Definition biggerIsBetter (t : ToolType) : bool :=
  match t with
  | cargo => false
  | go => false
  | benchmarkjs => true
  | pytest => true
  end.

(** [benches.find(b => b.name === n)]: the first measurement named [n]. *)
Definition findByName (n : string) (bs : list BenchmarkResult.t)
  : option BenchmarkResult.t :=
  List.find (fun b => String.eqb (BenchmarkResult.name b) n) bs.

(** The conditional expression of [findAlerts] that computes [ratio]. *)
Definition ratioOf (t : ToolType) (cur prv : BenchmarkResult.t) : number :=
  if biggerIsBetter t
  then (BenchmarkResult.value prv / BenchmarkResult.value cur)%float
  else (BenchmarkResult.value cur / BenchmarkResult.value prv)%float.

(** One turn of the loop of [findAlerts]: [alerts] is the array built so
    far, [cur] the measurement of this turn. *)
Definition findAlerts_step (curEntry prevEntry : Benchmark.t)
    (threshold : number) (alerts : list Alert.t) (cur : BenchmarkResult.t)
  : list Alert.t :=
  match findByName (BenchmarkResult.name cur) (Benchmark.benches prevEntry) with
  | None => alerts
  | Some prv =>
      let r := ratioOf (Benchmark.tool curEntry) cur prv in
      if gt r threshold
      then alerts ++ [ {| Alert.current := cur; Alert.prev := prv; Alert.ratio := r |} ]
      else alerts
  end.

Definition findAlerts (curEntry prevEntry : Benchmark.t) (threshold : number)
  : list Alert.t :=
  fold_left (findAlerts_step curEntry prevEntry threshold)
            (Benchmark.benches curEntry) [].

(** ** History store: the merge of [writeBenchmark] *)

(** The loop over [entries.slice().reverse()] with its [break]: the first
    entry, from the newest backwards, whose commit id is not the one of
    [bench]. *)
Definition findPrevBench (es : list Benchmark.t) (bench : Benchmark.t)
  : option Benchmark.t :=
  List.find
    (fun e => negb (String.eqb (Commit.id (Benchmark.commit e))
                               (Commit.id (Benchmark.commit bench))))
    (rev es).

(** The names of the properties of [Object.prototype], which every object
    literal and every object that [JSON.parse] builds inherits. *)
Definition Object_prototype : list string :=
  [ "constructor"; "__defineGetter__"; "__defineSetter__"; "hasOwnProperty";
    "__lookupGetter__"; "__lookupSetter__"; "isPrototypeOf";
    "propertyIsEnumerable"; "toString"; "valueOf"; "__proto__";
    "toLocaleString" ].

(** What [entries[name]] evaluates to: the array of an own property, what
    [Object.prototype] has under the name (a function, or for [__proto__] the
    prototype itself), or [undefined]. *)
Inductive property :=
| Own (es : list Benchmark.t)
| Inherited
| Undefined.

Definition getProperty (entries : BenchmarkEntries) (name : string) : property :=
  match entries !! name with
  | Some es => Own es
  | None => if existsb (String.eqb name) Object_prototype then Inherited else Undefined
  end.

(** The block under the comment "Add benchmark result": the entries after
    the merge and the value [prevBench] has after it. With an inherited value
    the test [=== undefined] fails and the [else] branch calls
    [entries.slice()] on a value that has no such method: the engine throws
    a [TypeError] before anything is changed, which is [None] here. *)
Definition addBenchmarkResult (name : string) (bench : Benchmark.t)
    (entries : BenchmarkEntries) : option (BenchmarkEntries * option Benchmark.t) :=
  match getProperty entries name with
  | Undefined => Some (<[name := [bench]]> entries, None)
  | Own es => Some (<[name := es ++ [bench]]> entries, findPrevBench es bench)
  | Inherited => None
  end.

(** Publishing the entries [bs] one after the other for the suite [name],
    as far as the entries of the history go: [None] as soon as one of the
    merges throws. *)
Definition mergeAll (name : string) (bs : list Benchmark.t)
    (entries : BenchmarkEntries) : option BenchmarkEntries :=
  fold_left (λ acc b, es ← acc; fst <$> addBenchmarkResult name b es) bs (Some entries).

(** ** Collaborators and effects *)

(** What a collaborator (git, the file system, the comment API,
    [JSON.parse]) or the engine itself throws: an [Error] object or, for all
    the program knows, another value. *)
Inductive rejection :=
| ErrorObject (message : string)
| OtherValue (v : string).

(** What a [throw] carries: a rejection, or one of the three errors that the
    program creates itself. *)
Inductive thrown :=
| Rejected (r : rejection)
| NoRepositoryError (payload : string)
| MissingTokenError
| AlertError (message : string).

Inductive result (A : Type) :=
| Ok (a : A)
| Throw (e : thrown).
Arguments Ok {A} a.
Arguments Throw {A} e.

(** The calls to collaborators that leave the process.

    Modelled from the spec: [git.ts] is not among the sources; the
    version-control collaborator is an opaque command interface with
    [cmd], [pull] and [push], each of which returns or throws, and so are
    [io.mkdirP] and the comment API. *)
Inductive Call :=
| GitCmd (args : list string)
| GitPull (token : option string) (branch : string) (opts : list string)
| GitPush (token : string) (branch : string)
| MkdirP (dir : string)
| CreateCommitComment (token owner repo commit_sha body : string).

(** The readable files of the working copy with their content, and the
    collaborator calls made so far, oldest first. *)
Record World := {
  files : gmap string string;
  calls : list Call;
}.

(** The built-in and library functions the program calls, which are pure. *)
Class Runtime := {
  (** [JSON.parse] at the type [loadDataJson] declares for its result;
      [None] when it throws. The program does not check what it parsed: this
      covers the data files whose document is a history, as [storeDataJson]
      writes them, and not a text that parses to something else ([null], an
      array, a suite that is not an array). *)
  JSON_parse : string -> option DataJson.t;
  (** [JSON.stringify(data, null, 2)]. *)
  JSON_stringify : DataJson.t -> string;
  (** A number inside a template literal. *)
  toString : number -> string;
  path_join : string -> string -> string;
  DEFAULT_INDEX_HTML : string;
}.

(** How the collaborators answer: each answer may depend on everything that
    happened before. *)
Class Host := {
  (** [None] when the call returns, the thrown value otherwise. *)
  outcome : Call -> World -> option rejection;
  (** The working copy when the call is over. *)
  tree_after : Call -> World -> gmap string string;
  (** [res.data.html_url] of a comment that was created. *)
  comment_url : Call -> World -> string;
  writeFile_outcome : string -> string -> World -> option rejection;
  (** What is under the path once a write has failed: [fs.writeFile] writes
      in place, so this may be the former content, a part of the new one, or
      no file at all. *)
  writeFile_leaves : string -> string -> World -> option string;
  stat_outcome : string -> World -> option rejection;
  (** What [fs.readFile] throws for a file it cannot read. *)
  readFile_error : string -> World -> rejection;
  (** The [SyntaxError] of [JSON.parse]. *)
  parse_error : string -> rejection;
  Date_now : World -> number;
  (** [github.context]. *)
  context_repository : option Repository.t;
  context_workflow : string;
  (** [JSON.stringify(github.context.payload, null, 2)]. *)
  context_payload : string;
}.

Definition M (A : Type) : Type := World -> result A * World.

Definition ret {A} (a : A) : M A := fun w => (Ok a, w).

Definition throw {A} (e : thrown) : M A := fun w => (Throw e, w).

Definition bind {A B} (m : M A) (k : A -> M B) : M B :=
  fun w =>
    match m w with
    | (Ok a, w') => k a w'
    | (Throw e, w') => (Throw e, w')
    end.

(** [try { body } catch (err) { handler }]. *)
Definition tryCatch {A} (body : M A) (handler : thrown -> M A) : M A :=
  fun w =>
    match body w with
    | (Ok a, w') => (Ok a, w')
    | (Throw e, w') => handler e w'
    end.

(** [try { body } finally { cleanup }]: [cleanup] runs however [body] ends,
    and what it throws replaces the outcome of [body]. *)
Definition tryFinally {A} (body : M A) (cleanup : M unit) : M A :=
  fun w =>
    match body w with
    | (r, w') =>
        match cleanup w' with
        | (Ok _, w'') => (r, w'')
        | (Throw e, w'') => (Throw e, w'')
        end
    end.

Declare Scope js_scope.
Delimit Scope js_scope with js.
Bind Scope js_scope with M.
Notation "x <- m ;; k" := (bind m (fun x => k))
  (at level 100, m at next level, right associativity) : js_scope.
Notation "m ;; k" := (bind m (fun _ => k))
  (at level 100, right associativity) : js_scope.

(** The line feed that the program writes as a backslash and an n. *)
Definition nl : string :=
  String (Ascii.Ascii false true false true false false false false) EmptyString.

Section Program.
Context {rt : Runtime} {host : Host}.
Local Open Scope js_scope.

(** The world once the call [c] made in [w] is over. *)
Definition happened (c : Call) (w : World) : World :=
  {| files := tree_after c w; calls := calls w ++ [c] |}.

(** [await] of a collaborator call. *)
Definition call (c : Call) : M unit :=
  fun w =>
    let w' := happened c w in
    match outcome c w with
    | None => (Ok tt, w')
    | Some e => (Throw (Rejected e), w')
    end.

(** [await client.repos.createCommitComment(...)]: the [html_url] of the
    response. *)
Definition createCommitComment (c : Call) : M string :=
  fun w =>
    let w' := happened c w in
    match outcome c w with
    | None => (Ok (comment_url c w), w')
    | Some e => (Throw (Rejected e), w')
    end.

(** [await fs.readFile(path, 'utf8')]. *)
Definition readFile (path : string) : M string :=
  fun w =>
    match files w !! path with
    | Some content => (Ok content, w)
    | None => (Throw (Rejected (readFile_error path w)), w)
    end.

(** The world once a write of [content] under [path] has failed. *)
Definition failedWrite (path content : string) (w : World) : World :=
  {| files := match writeFile_leaves path content w with
              | Some rest => <[path := rest]> (files w)
              | None => delete path (files w)
              end;
     calls := calls w |}.

(** [await fs.writeFile(path, content, 'utf8')]. *)
Definition writeFile (path content : string) : M unit :=
  fun w =>
    match writeFile_outcome path content w with
    | None => (Ok tt, {| files := <[path := content]> (files w); calls := calls w |})
    | Some e => (Throw (Rejected e), failedWrite path content w)
    end.

(** [await fs.stat(path)], of which only success or failure is used. *)
Definition stat (path : string) : M unit :=
  fun w =>
    match stat_outcome path w with
    | None => (Ok tt, w)
    | Some e => (Throw (Rejected e), w)
    end.

Definition parse (json : string) : M DataJson.t :=
  match JSON_parse json with
  | Some parsed => ret parsed
  | None => throw (Rejected (parse_error json))
  end.

Definition now : M number := fun w => (Ok (Date_now w), w).

(** *** HistoryStore *)

Definition loadDataJson (dataPath : string) : M DataJson.t :=
  tryCatch
    (script <- readFile dataPath ;;
     let json := Js.slice (String.length SCRIPT_PREFIX) script in
     parsed <- parse json ;;
     ret parsed)
    (fun _ => ret emptyDataJson).

Definition storeDataJson (dataPath : string) (data : DataJson.t) : M unit :=
  let script := SCRIPT_PREFIX +:+ JSON_stringify data in
  writeFile dataPath script.

Definition addIndexHtmlIfNeeded (dir : string) : M unit :=
  let indexHtml := path_join dir "index.html" in
  existing <- tryCatch (stat indexHtml ;; ret true) (fun _ => ret false) ;;
  if existing : bool then ret tt
  else
    writeFile indexHtml DEFAULT_INDEX_HTML ;;
    call (GitCmd ["add"; indexHtml]).

(** *** Push with one retry *)

(** [err instanceof Error], with [err.message] when it holds. *)
Definition messageOf (err : thrown) : option string :=
  match err with
  | Rejected (ErrorObject m) => Some m
  | Rejected (OtherValue _) => None
  | NoRepositoryError payload =>
      Some ("Repository information is not available in payload: " +:+ payload)
  | MissingTokenError =>
      Some "'comment-on-alert' is set but github-token is not set"
  | AlertError m => Some m
  end.

(** The negation of the condition under which the [catch] block of
    [pushGitHubPages] throws [err] again. *)
Definition isRemoteRejected (err : thrown) : bool :=
  match messageOf err with
  | Some m => Js.includes "[remote rejected]" m
  | None => false
  end.

(** The [try] block returns from the function; the [catch] block throws
    again or falls through to the retry. [retry] tells which of the two ways
    out of the [try] statement was taken. *)
Definition pushGitHubPages (token branch : string) : M unit :=
  retry <- tryCatch
             (call (GitPush token branch) ;; ret false)
             (fun err => if isRemoteRejected err then ret true else throw err) ;;
  if retry : bool then
    call (GitPull (Some token) branch ["--rebase"]) ;;
    call (GitPush token branch)
  else ret tt.

(** *** NotificationComposer *)

Definition getCurrentRepo : M Repository.t :=
  match context_repository with
  | Some repo => ret repo
  | None => throw (NoRepositoryError context_payload)
  end.

Definition strOfValue (b : BenchmarkResult.t) : string :=
  let s := "`" +:+ toString (BenchmarkResult.value b) +:+ "` " +:+ BenchmarkResult.unit b in
  match truthy (BenchmarkResult.range b) with
  | Some r => s +:+ " (`" +:+ r +:+ "`)"
  | None => s
  end.

Definition alertTitle (threshold : number) : string :=
  if PrimFloat.eqb threshold 0
  then "# Performance Report"
  else "# :warning: **Performance Alert** :warning:".

Definition alertLine (a : Alert.t) : string :=
  "| `" +:+ BenchmarkResult.name (Alert.current a) +:+ "` | "
    +:+ strOfValue (Alert.current a) +:+ " | "
    +:+ strOfValue (Alert.prev a) +:+ " | `"
    +:+ toString (Alert.ratio a) +:+ "` |".

Definition buildAlertComment (alerts : list Alert.t) (benchName : string)
    (curEntry prevEntry : Benchmark.t) (threshold : number) (cc : list string)
  : M string :=
  let benchmarkText :=
    if String.eqb benchName "Benchmark" then "" else " **'" +:+ benchName +:+ "'**" in
  let title := alertTitle threshold in
  let lines :=
    [ title;
      "";
      "Possible performance regression was detected for benchmark" +:+ benchmarkText +:+ ".";
      "Benchmark result of this commit is worse than the previous benchmark result exceeding threshold `"
        +:+ toString threshold +:+ "`.";
      "";
      "| Benchmark suite | Current: " +:+ Commit.id (Benchmark.commit curEntry)
        +:+ " | Previous: " +:+ Commit.id (Benchmark.commit prevEntry) +:+ " | Ratio |";
      "|-|-|-|-|" ] in
  let lines := fold_left (fun ls a => ls ++ [alertLine a]) alerts lines in
  repo <- getCurrentRepo ;;
  let repoUrl := Repository.html_url repo in
  let actionUrl := repoUrl +:+ "/actions?query=workflow%3A" +:+ context_workflow in
  let lines :=
    lines ++
    [ "";
      "This comment was automatically generated by [workflow](" +:+ actionUrl
        +:+ ") using [github-action-benchmark](https://github.com/rhysd/github-action-benchmark)." ] in
  let lines :=
    if bool_decide (0 < length cc)
    then lines ++ [ ""; "CC: " +:+ Js.join " " cc ]
    else lines in
  ret (Js.join nl lines).

Definition leaveComment (commitId body token : string) : M string :=
  repo <- getCurrentRepo ;;
  createCommitComment
    (CreateCommitComment token (Repository.owner_login repo) (Repository.name repo)
                         commitId body).

Definition alert (benchName : string) (curEntry prevEntry : Benchmark.t)
    (threshold : number) (token : option string) (shouldComment shouldFail : bool)
    (ccUsers : list string) : M unit :=
  if negb shouldComment && negb shouldFail then ret tt
  else
    let alerts := findAlerts curEntry prevEntry threshold in
    if bool_decide (length alerts = 0) then ret tt
    else
      body <- buildAlertComment alerts benchName curEntry prevEntry threshold ccUsers ;;
      message <-
        (if shouldComment then
           match truthy token with
           | None => throw MissingTokenError
           | Some tok =>
               url <- leaveComment (Commit.id (Benchmark.commit curEntry)) body tok ;;
               ret (body +:+ nl +:+ "Comment was generated at " +:+ url)
           end
         else ret body) ;;
      if shouldFail then throw (AlertError message) else ret tt.

(** *** PublishCoordinator *)

Definition toolName (t : ToolType) : string :=
  match t with
  | cargo => "cargo"
  | go => "go"
  | benchmarkjs => "benchmarkjs"
  | pytest => "pytest"
  end.

(** The statements of the [try] block of [writeBenchmark] down to the push,
    with the value of the variable [prevBench] that the rest of the block
    reads. *)
Definition writeBenchmark_update (bench : Benchmark.t) (config : Config.t)
  : M (option Benchmark.t) :=
  let name := Config.name config in
  let ghPagesBranch := Config.ghPagesBranch config in
  let benchmarkDataDirPath := Config.benchmarkDataDirPath config in
  let githubToken := Config.githubToken config in
  let dataPath := path_join benchmarkDataDirPath "data.js" in
  let htmlUrl := from_option Repository.html_url "" context_repository in
  let isPrivateRepo := from_option Repository.private false context_repository in
  (if negb (Config.skipFetchGhPages config)
      && (negb isPrivateRepo || bool_decide (is_Some (truthy githubToken)))
   then call (GitPull githubToken ghPagesBranch [])
   else ret tt) ;;
  call (MkdirP benchmarkDataDirPath) ;;
  data <- loadDataJson dataPath ;;
  lastUpdate <- now ;;
  match addBenchmarkResult name bench (DataJson.entries data) with
  | None => throw (Rejected (ErrorObject "entries.slice is not a function"))
  | Some (entries, prevBench) =>
      let data := {| DataJson.lastUpdate := lastUpdate;
                     DataJson.repoUrl := htmlUrl;
                     DataJson.entries := entries |} in
      storeDataJson dataPath data ;;
      call (GitCmd ["add"; dataPath]) ;;
      addIndexHtmlIfNeeded benchmarkDataDirPath ;;
      call (GitCmd ["commit"; "-m";
                    "add " +:+ name +:+ " (" +:+ toolName (Config.tool config)
                      +:+ ") benchmark result for " +:+ Commit.id (Benchmark.commit bench)]) ;;
      (match truthy githubToken with
       | Some token =>
           if Config.autoPush config then pushGitHubPages token ghPagesBranch else ret tt
       | None => ret tt
       end) ;;
      ret prevBench
  end.

(** The end of the [try] block: the alert check, after the push. *)
Definition writeBenchmark_check (bench : Benchmark.t) (config : Config.t)
    (prevBench : option Benchmark.t) : M unit :=
  match prevBench with
  | None => ret tt
  | Some prevBench =>
      alert (Config.name config) bench prevBench (Config.alertThreshold config)
            (Config.githubToken config)
            (Config.commentOnAlert config) (Config.failOnAlert config)
            (Config.alertCommentCcUsers config)
  end.

Definition writeBenchmark_try (bench : Benchmark.t) (config : Config.t) : M unit :=
  prevBench <- writeBenchmark_update bench config ;;
  writeBenchmark_check bench config prevBench.

Definition writeBenchmark (bench : Benchmark.t) (config : Config.t) : M unit :=
  call (GitCmd ["switch"; Config.ghPagesBranch config]) ;;
  tryFinally
    (writeBenchmark_try bench config)
    (call (GitCmd ["checkout"; "-"])).

End Program.

(** ** The specification's wording of detection *)

(** [p] is the first measurement of [bs] with name [n]. *)
Definition firstNamed (n : string) (bs : list BenchmarkResult.t)
    (p : BenchmarkResult.t) : Prop :=
  ∃ before after,
    bs = before ++ p :: after ∧
    BenchmarkResult.name p = n ∧
    Forall (λ b, BenchmarkResult.name b ≠ n) before.

(** The ratio by polarity, tool by tool. *)
Definition specRatio (t : ToolType) (cur base : number) : number :=
  match t with
  | benchmarkjs | pytest => (base / cur)%float
  | cargo | go => (cur / base)%float
  end.

(** [detects t baseline threshold cs alerts]: going through the current
    measurements [cs] in order, [alerts] has one alert for each of them that
    has a first same-named baseline measurement and a ratio above the
    threshold, and nothing for the others. *)
Inductive detects (t : ToolType) (baseline : list BenchmarkResult.t)
    (threshold : number) : list BenchmarkResult.t → list Alert.t → Prop :=
| detects_done : detects t baseline threshold [] []
| detects_absent c cs alerts :
    Forall (λ b, BenchmarkResult.name b ≠ BenchmarkResult.name c) baseline →
    detects t baseline threshold cs alerts →
    detects t baseline threshold (c :: cs) alerts
| detects_within c p cs alerts :
    firstNamed (BenchmarkResult.name c) baseline p →
    gt (specRatio t (BenchmarkResult.value c) (BenchmarkResult.value p)) threshold = false →
    detects t baseline threshold cs alerts →
    detects t baseline threshold (c :: cs) alerts
| detects_alert c p cs alerts :
    firstNamed (BenchmarkResult.name c) baseline p →
    gt (specRatio t (BenchmarkResult.value c) (BenchmarkResult.value p)) threshold = true →
    detects t baseline threshold cs alerts →
    detects t baseline threshold (c :: cs)
      ({| Alert.current := c; Alert.prev := p;
          Alert.ratio := specRatio t (BenchmarkResult.value c) (BenchmarkResult.value p) |}
         :: alerts).

(** ** A runtime and hosts to run the program on *)

Module Sample.

(** The double quote. *)
Definition dq : string :=
  String (Ascii.Ascii false true false false false true false false) EmptyString.

Definition quoted (s : string) : string := dq +:+ s +:+ dq.

(** The numbers of the examples with their decimal notation. *)
Definition numerals : list (number * string) :=
  [ (0%float, "0"); (1%float, "1"); (1.5%float, "1.5"); (2%float, "2");
    (100%float, "100"); (200%float, "200") ].

Definition numeral (x : number) : string :=
  from_option snd "NaN" (List.find (λ '(y, _), PrimFloat.eqb x y) numerals).

(** JSON text, without indentation, of documents whose strings need no
    escape. *)
Definition textOfResult (b : BenchmarkResult.t) : string :=
  "{" +:+ quoted "name" +:+ ":" +:+ quoted (BenchmarkResult.name b)
    +:+ "," +:+ quoted "value" +:+ ":" +:+ numeral (BenchmarkResult.value b)
    +:+ "," +:+ quoted "unit" +:+ ":" +:+ quoted (BenchmarkResult.unit b)
    +:+ from_option (λ r, "," +:+ quoted "range" +:+ ":" +:+ quoted r) "" (BenchmarkResult.range b)
    +:+ "}".

Definition textOfBenchmark (e : Benchmark.t) : string :=
  "{" +:+ quoted "commit" +:+ ":{"
    +:+ quoted "id" +:+ ":" +:+ quoted (Commit.id (Benchmark.commit e)) +:+ ","
    +:+ quoted "url" +:+ ":" +:+ quoted (Commit.url (Benchmark.commit e)) +:+ "},"
    +:+ quoted "tool" +:+ ":"
    +:+ quoted (match Benchmark.tool e with
                | cargo => "cargo" | go => "go"
                | benchmarkjs => "benchmarkjs" | pytest => "pytest"
                end) +:+ ","
    +:+ quoted "benches" +:+ ":[" +:+ Js.join "," (textOfResult <$> Benchmark.benches e) +:+ "]}".

Definition textOfEntries (entries : BenchmarkEntries) : string :=
  "{" +:+ Js.join ","
            ((λ '(suite, es),
                quoted suite +:+ ":[" +:+ Js.join "," (textOfBenchmark <$> es) +:+ "]")
               <$> map_to_list entries)
      +:+ "}".

Definition stringify (data : DataJson.t) : string :=
  "{" +:+ quoted "lastUpdate" +:+ ":" +:+ numeral (DataJson.lastUpdate data) +:+ ","
    +:+ quoted "repoUrl" +:+ ":" +:+ quoted (DataJson.repoUrl data) +:+ ","
    +:+ quoted "entries" +:+ ":" +:+ textOfEntries (DataJson.entries data) +:+ "}".

(** A parser that knows the texts of the documents [known]. *)
Definition parse (known : list DataJson.t) (text : string) : option DataJson.t :=
  List.find (λ d, String.eqb (stringify d) text) known.

Definition repoUrl : string := "https://github.com/owner/repo".

Definition entry (id : string) (t : ToolType) (v : number) : Benchmark.t :=
  {| Benchmark.commit := {| Commit.id := id; Commit.url := repoUrl +:+ "/commit/" +:+ id |};
     Benchmark.tool := t;
     Benchmark.benches :=
       [ {| BenchmarkResult.name := "fib"; BenchmarkResult.value := v;
            BenchmarkResult.unit := "ns/iter"; BenchmarkResult.range := Some "+/- 3" |} ] |}.

(** A history without entries, which is not the default one. *)
Definition blank : DataJson.t :=
  {| DataJson.lastUpdate := 1%float; DataJson.repoUrl := repoUrl; DataJson.entries := ∅ |}.

(** A history with commits A, A, B and C in the suite "suite". *)
Definition history : DataJson.t :=
  {| DataJson.lastUpdate := 1%float;
     DataJson.repoUrl := repoUrl;
     DataJson.entries :=
       {[ "suite" := [ entry "A" cargo 100; entry "A" cargo 100;
                       entry "B" cargo 100; entry "C" cargo 200 ] ]} |}.

Definition runtime : Runtime :=
  {| JSON_parse := parse [emptyDataJson; blank; history];
     JSON_stringify := stringify;
     toString := numeral;
     path_join := λ dir file, dir +:+ "/" +:+ file;
     DEFAULT_INDEX_HTML := "<!DOCTYPE html>" |}.

Definition repository : Repository.t :=
  {| Repository.html_url := repoUrl; Repository.private := false;
     Repository.owner_login := "owner"; Repository.name := "repo" |}.

(** A host whose collaborator calls fail as [fails] tells from the call and
    the calls made before it, and leave the working copy as it is; the file
    system accepts every write. *)
Definition host (fails : Call → list Call → option rejection)
    (repo : option Repository.t) : Host :=
  {| outcome := λ c w, fails c (calls w);
     tree_after := λ _ w, files w;
     comment_url := λ _ _, repoUrl +:+ "/commit/C#commitcomment-1";
     writeFile_outcome := λ _ _ _, None;
     writeFile_leaves := λ path _ w, files w !! path;
     stat_outcome := λ path w,
       match files w !! path with
       | Some _ => None
       | None => Some (ErrorObject "ENOENT")
       end;
     readFile_error := λ _ _, ErrorObject "ENOENT";
     parse_error := λ _, ErrorObject "Unexpected token";
     Date_now := λ _, 2%float;
     context_repository := repo;
     context_workflow := "CI";
     context_payload := "{}" |}.

(** Every call succeeds. *)
Definition calm : Host := host (λ _ _, None) (Some repository).

Definition pushes (c : Call) : bool :=
  match c with GitPush _ _ => true | _ => false end.

(** The remote branch moved: the first push is rejected, later ones pass. *)
Definition raced (c : Call) (before : list Call) : option rejection :=
  if pushes c && negb (existsb pushes before)
  then Some (ErrorObject " ! [remote rejected] gh-pages -> gh-pages (fetch first)")
  else None.

(** The remote branch moved, and the rebase onto it stops on a conflict. *)
Definition conflicting (c : Call) (before : list Call) : option rejection :=
  match c with
  | GitPull _ _ ["--rebase"] =>
      Some (ErrorObject "CONFLICT (content): Merge conflict in dev/bench/data.js")
  | _ => raced c before
  end.

(** The network is down: every push fails, with no word of a rejection. *)
Definition offline (c : Call) (before : list Call) : option rejection :=
  if pushes c
  then Some (ErrorObject "fatal: unable to access remote: Could not resolve host")
  else None.

(** The publish branch does not exist. *)
Definition branchless (c : Call) (before : list Call) : option rejection :=
  match c with
  | GitCmd ("switch" :: _) =>
      Some (ErrorObject "fatal: invalid reference: gh-pages")
  | _ => None
  end.

Definition config : Config.t :=
  {| Config.name := "suite";
     Config.tool := cargo;
     Config.ghPagesBranch := "gh-pages";
     Config.benchmarkDataDirPath := "dev/bench";
     Config.githubToken := Some "token";
     Config.autoPush := true;
     Config.skipFetchGhPages := false;
     Config.commentOnAlert := true;
     Config.alertThreshold := 1.5%float;
     Config.failOnAlert := false;
     Config.alertCommentCcUsers := ["@rhysd"] |}.

(** A working copy whose data file holds [data]. *)
Definition world (data : DataJson.t) : World :=
  {| files := {[ "dev/bench/data.js" := SCRIPT_PREFIX +:+ stringify data ]};
     calls := [] |}.

Definition fresh : World := {| files := ∅; calls := [] |}.

(** An always-report run that is asked to fail on alerts. *)
Definition informational : Config.t :=
  {| Config.name := "suite";
     Config.tool := cargo;
     Config.ghPagesBranch := "gh-pages";
     Config.benchmarkDataDirPath := "dev/bench";
     Config.githubToken := Some "token";
     Config.autoPush := true;
     Config.skipFetchGhPages := false;
     Config.commentOnAlert := false;
     Config.alertThreshold := 0%float;
     Config.failOnAlert := true;
     Config.alertCommentCcUsers := [] |}.

(** An always-report run that comments and does not fail. *)
Definition reporting : Config.t :=
  {| Config.name := "suite";
     Config.tool := cargo;
     Config.ghPagesBranch := "gh-pages";
     Config.benchmarkDataDirPath := "dev/bench";
     Config.githubToken := Some "token";
     Config.autoPush := false;
     Config.skipFetchGhPages := true;
     Config.commentOnAlert := true;
     Config.alertThreshold := 0%float;
     Config.failOnAlert := false;
     Config.alertCommentCcUsers := [] |}.

(** Comment-on-alert without a token. *)
Definition tokenless : Config.t :=
  {| Config.name := "suite";
     Config.tool := cargo;
     Config.ghPagesBranch := "gh-pages";
     Config.benchmarkDataDirPath := "dev/bench";
     Config.githubToken := None;
     Config.autoPush := true;
     Config.skipFetchGhPages := false;
     Config.commentOnAlert := true;
     Config.alertThreshold := 1.5%float;
     Config.failOnAlert := false;
     Config.alertCommentCcUsers := [] |}.

(** A data file written with one space less than the prefix has. *)
Definition shortScript : string :=
  "window.BENCHMARK_DATA =" +:+ stringify blank.

Definition shortWorld : World :=
  {| files := {[ "dev/bench/data.js" := shortScript ]}; calls := [] |}.

End Sample.

(** ** The specification's wording of the push conflict *)

(** The push failed with an error whose message has the marker in it. *)
Definition remoteRejected (err : rejection) : Prop :=
  ∃ before rest, err = ErrorObject (before +:+ "[remote rejected]" +:+ rest).

(** ** Reading the list of calls *)

(** Whatever its outcome, [m] only adds calls that satisfy [P] to those made
    before it. *)
Definition emits {A} (P : Call → Prop) (m : M A) : Prop :=
  ∀ w, ∃ cs, calls (m w).2 = calls w ++ cs ∧ Forall P cs.

(** When [m] returns, it has made the call [c]. *)
Definition makes {A} (c : Call) (m : M A) : Prop :=
  ∀ w a w', m w = (Ok a, w') →
    ∃ before after, calls w' = calls w ++ before ++ c :: after.

(** [m] throws nothing but values that satisfy [Q]. *)
Definition raises {A} (Q : thrown → Prop) (m : M A) : Prop :=
  ∀ w e w', m w = (Throw e, w') → Q e.

Definition isComment (c : Call) : bool :=
  match c with CreateCommitComment _ _ _ _ _ => true | _ => false end.

Definition isPush (c : Call) : bool :=
  match c with GitPush _ _ => true | _ => false end.

(** The calls of the [try] block of [writeBenchmark] before the alert
    check. *)
Definition isUpdateCall (c : Call) : bool :=
  match c with
  | GitPull _ _ _ | MkdirP _ | GitPush _ _ => true
  | GitCmd ["add"; _] | GitCmd ["commit"; "-m"; _] => true
  | _ => false
  end.

(** ** More to run the program on *)

Module Replay.

(** The measurement of [Sample.entry]. *)
Definition fib (v : number) : BenchmarkResult.t :=
  {| BenchmarkResult.name := "fib"; BenchmarkResult.value := v;
     BenchmarkResult.unit := "ns/iter"; BenchmarkResult.range := Some "+/- 3" |}.

(** A data file cut off inside the prefix. *)
Definition cutOff : World :=
  {| files := {[ "dev/bench/data.js" := "window.BENCH" ]}; calls := [] |}.

(** A host whose payload has no repository. *)
Definition anonymous : Host := Sample.host (λ _ _, None) None.

(** The history that the first publish of commit A leaves, on a host whose
    clock shows 2. *)
Definition afterFirst : DataJson.t :=
  {| DataJson.lastUpdate := 2%float;
     DataJson.repoUrl := Sample.repoUrl;
     DataJson.entries := {[ "suite" := [ Sample.entry "A" cargo 100 ] ]} |}.

(** The sample runtime, with a parser that knows that history too. *)
Definition runtime : Runtime :=
  {| JSON_parse := Sample.parse [emptyDataJson; afterFirst];
     JSON_stringify := Sample.stringify;
     toString := Sample.numeral;
     path_join := λ dir file, dir +:+ "/" +:+ file;
     DEFAULT_INDEX_HTML := "<!DOCTYPE html>" |}.

(** The report on commit C against B of the sample history, and the run
    that fails with it. *)
Definition failing : result unit * World :=
  alert (rt:=Sample.runtime) (host:=Sample.calm) "suite"
    (Sample.entry "C" cargo 200) (Sample.entry "B" cargo 100) 1.5%float
    None false true [] Sample.fresh.

Definition report : string :=
  Eval vm_compute in
    match failing.1 with
    | Throw (AlertError message) => message
    | _ => EmptyString
    end.

(** A host whose disk is full: every write fails and leaves an empty file;
    the collaborators answer as those of [Sample.calm]. *)
Definition diskFull : Host :=
  {| outcome := λ _ _, None;
     tree_after := λ _ w, files w;
     comment_url := λ _ _, Sample.repoUrl +:+ "/commit/C#commitcomment-1";
     writeFile_outcome := λ _ _ _, Some (ErrorObject "ENOSPC: no space left on device");
     writeFile_leaves := λ _ _ _, Some EmptyString;
     stat_outcome := λ path w,
       match files w !! path with
       | Some _ => None
       | None => Some (ErrorObject "ENOENT")
       end;
     readFile_error := λ _ _, ErrorObject "ENOENT";
     parse_error := λ _, ErrorObject "Unexpected token";
     Date_now := λ _, 2%float;
     context_repository := Some Sample.repository;
     context_workflow := "CI";
     context_payload := "{}" |}.

(** A suite named as a method that every object has. *)
Definition inheriting : Config.t :=
  {| Config.name := "toString";
     Config.tool := cargo;
     Config.ghPagesBranch := "gh-pages";
     Config.benchmarkDataDirPath := "dev/bench";
     Config.githubToken := Some "token";
     Config.autoPush := true;
     Config.skipFetchGhPages := false;
     Config.commentOnAlert := true;
     Config.alertThreshold := 1.5%float;
     Config.failOnAlert := false;
     Config.alertCommentCcUsers := [] |}.

End Replay.

(** ** Notions for the further properties *)

(** The entry [e] with the measurements [bs] in place of its own. *)
Definition withBenches (e : Benchmark.t) (bs : list BenchmarkResult.t) : Benchmark.t :=
  {| Benchmark.commit := Benchmark.commit e;
     Benchmark.tool := Benchmark.tool e;
     Benchmark.benches := bs |}.

(** The new entry has the commit id of [e]. *)
Definition sameCommit (bench e : Benchmark.t) : Prop :=
  Commit.id (Benchmark.commit e) = Commit.id (Benchmark.commit bench).

(** Whatever its outcome, [m] leaves the file [path] as it found it. *)
Definition keeps {A} (path : string) (m : M A) : Prop :=
  ∀ w, files (m w).2 !! path = files w !! path.

(** A pull without options, as the sync of a publish makes it. *)
Definition isPlainPull (c : Call) : bool :=
  match c with GitPull _ _ [] => true | _ => false end.

(** A pull with [--rebase], as the retry of a push makes it. *)
Definition isRebase (c : Call) : bool :=
  match c with GitPull _ _ ["--rebase"] => true | _ => false end.

Section Notions.
Context {rt : Runtime} {host : Host}.

(** The names [writeBenchmark] gives to the paths and calls of a publish. *)
Definition dataPath (config : Config.t) : string :=
  path_join (Config.benchmarkDataDirPath config) "data.js".

Definition indexPath (config : Config.t) : string :=
  path_join (Config.benchmarkDataDirPath config) "index.html".

Definition switchCall (config : Config.t) : Call :=
  GitCmd ["switch"; Config.ghPagesBranch config].

Definition checkoutCall : Call := GitCmd ["checkout"; "-"].

Definition syncCall (config : Config.t) : Call :=
  GitPull (Config.githubToken config) (Config.ghPagesBranch config) [].

Definition commitCall (bench : Benchmark.t) (config : Config.t) : Call :=
  GitCmd ["commit"; "-m";
          "add " +:+ Config.name config +:+ " (" +:+ toolName (Config.tool config)
            +:+ ") benchmark result for " +:+ Commit.id (Benchmark.commit bench)].

(** The condition of the first [if] of the [try] block: the branch is
    pulled before the merge. *)
Definition syncsFirst (config : Config.t) : bool :=
  negb (Config.skipFetchGhPages config)
  && (negb (from_option Repository.private false context_repository)
      || bool_decide (is_Some (truthy (Config.githubToken config)))).

(** The condition [githubToken && autoPush], with the token when it holds. *)
Definition pushToken (config : Config.t) : option string :=
  match truthy (Config.githubToken config) with
  | Some token => if Config.autoPush config then Some token else None
  | None => None
  end.

(** The history that a publish writes, from the one it loaded in [w0]; the
    entries are those of the merge, which is where a publish that writes has
    them from. *)
Definition storedData (bench : Benchmark.t) (config : Config.t)
    (data : DataJson.t) (w0 : World) : DataJson.t :=
  {| DataJson.lastUpdate := Date_now w0;
     DataJson.repoUrl := from_option Repository.html_url "" context_repository;
     DataJson.entries :=
       from_option fst (DataJson.entries data)
         (addBenchmarkResult (Config.name config) bench (DataJson.entries data)) |}.

(** The world once [content] is written under [path]. *)
Definition written (path content : string) (w : World) : World :=
  {| files := <[path := content]> (files w); calls := calls w |}.

(** The footer line of a report. *)
Definition footerLine (repo : Repository.t) : string :=
  "This comment was automatically generated by [workflow]("
    +:+ (Repository.html_url repo +:+ "/actions?query=workflow%3A" +:+ context_workflow)
    +:+ ") using [github-action-benchmark](https://github.com/rhysd/github-action-benchmark).".

End Notions.

(** * Properties *)

(** ** Lists: the first element that passes a test *)

Section Find.
Context {A : Type} (f : A → bool).

Lemma find_Some_first (l : list A) (x : A) :
  List.find f l = Some x ↔
  ∃ l1 l2, l = l1 ++ x :: l2 ∧ f x = true ∧ Forall (λ y, f y = false) l1.
Proof.
  split.
  - induction l as [|a l IH]; simpl; [discriminate|].
    destruct (f a) eqn:Ha.
    + intros [= ->]. exists [], l. split; [done|]. split; [done|constructor].
    + intros Hx. destruct (IH Hx) as (l1 & l2 & -> & Hfx & Hl1).
      exists (a :: l1), l2. split; [done|]. split; [done|]. by constructor.
  - intros (l1 & l2 & -> & Hfx & Hl1).
    induction Hl1 as [|y l1 Hy _ IH]; simpl.
    + by rewrite Hfx.
    + by rewrite Hy.
Qed.

Lemma find_None_all (l : list A) :
  List.find f l = None ↔ Forall (λ y, f y = false) l.
Proof.
  induction l as [|a l IH]; simpl.
  - split; [constructor|done].
  - destruct (f a) eqn:Ha.
    + split; [discriminate|]. intros H. inversion H; congruence.
    + rewrite IH. split; [by constructor|]. by inversion 1.
Qed.
End Find.

(** ** Regression detector *)

Lemma findByName_firstNamed n bs p :
  findByName n bs = Some p ↔ firstNamed n bs p.
Proof.
  unfold findByName, firstNamed. rewrite find_Some_first.
  split; intros (l1 & l2 & -> & Hp & Hl1); exists l1, l2; (split; [done|]).
  - apply String.eqb_eq in Hp. split; [done|].
    eapply Forall_impl; [exact Hl1|]. intros b Hb. by apply String.eqb_neq.
  - split; [by apply String.eqb_eq|].
    eapply Forall_impl; [exact Hl1|]. intros b Hb. by apply String.eqb_neq.
Qed.

Lemma findByName_absent n bs :
  findByName n bs = None ↔ Forall (λ b, BenchmarkResult.name b ≠ n) bs.
Proof.
  unfold findByName. rewrite find_None_all.
  split; intros H; (eapply Forall_impl; [exact H|]); intros b Hb; by apply String.eqb_neq.
Qed.

Lemma ratioOf_specRatio t c p :
  ratioOf t c p = specRatio t (BenchmarkResult.value c) (BenchmarkResult.value p).
Proof. by destruct t. Qed.

(** The loop only ever appends to the array it started with. *)
Lemma findAlerts_loop_app cur prv th cs acc :
  fold_left (findAlerts_step cur prv th) cs acc =
  acc ++ fold_left (findAlerts_step cur prv th) cs [].
Proof.
  revert acc. induction cs as [|c cs IH]; intros acc; simpl.
  - by rewrite app_nil_r.
  - rewrite (IH (findAlerts_step cur prv th acc c)).
    rewrite (IH (findAlerts_step cur prv th [] c)).
    unfold findAlerts_step.
    destruct (findByName _ _); [|done].
    destruct (gt _ _); [|done].
    by rewrite <- app_assoc.
Qed.

Lemma detects_loop cur prv th cs :
  detects (Benchmark.tool cur) (Benchmark.benches prv) th cs
          (fold_left (findAlerts_step cur prv th) cs []).
Proof.
  induction cs as [|c cs IH]; simpl; [constructor|].
  rewrite findAlerts_loop_app.
  set (rest := fold_left _ cs []) in *. unfold findAlerts_step.
  destruct (findByName _ _) as [p|] eqn:Hfind.
  - apply findByName_firstNamed in Hfind. rewrite ratioOf_specRatio.
    destruct (gt _ _) eqn:Hgt; simpl.
    + by apply detects_alert.
    + by eapply detects_within.
  - apply findByName_absent in Hfind. simpl. by apply detects_absent.
Qed.

Lemma detects_functional t baseline th cs alerts1 alerts2 :
  detects t baseline th cs alerts1 →
  detects t baseline th cs alerts2 →
  alerts1 = alerts2.
Proof.
  intros H1. revert alerts2.
  induction H1 as [|c cs a1 Habs _ IH|c p cs a1 Hp Hgt _ IH|c p cs a1 Hp Hgt _ IH];
    intros alerts2 H2; inversion H2 as [|? ? ? Habs' H2'|? p' ? ? Hp' Hgt' H2'|? p' ? ? Hp' Hgt' H2'];
    subst;
    repeat match goal with
    | H : firstNamed _ _ _ |- _ => apply findByName_firstNamed in H
    | H : Forall _ _ |- _ => apply findByName_absent in H
    end; try congruence; try (by apply IH).
  f_equal; [congruence|by apply IH].
Qed.

(** C2. [findAlerts] gives, in the order of [curEntry.benches], exactly one
    alert for each current measurement whose first same-named baseline
    measurement exists and whose ratio is above the threshold, the ratio
    being baseline over current for benchmarkjs and pytest and current over
    baseline for cargo and go; a measurement without a same-named baseline
    measurement gives no alert, and the function always returns. *)
Theorem findAlerts_detects (curEntry prevEntry : Benchmark.t) (threshold : number)
    (alerts : list Alert.t) :
  detects (Benchmark.tool curEntry) (Benchmark.benches prevEntry) threshold
          (Benchmark.benches curEntry) alerts
  ↔ alerts = findAlerts curEntry prevEntry threshold.
Proof.
  split.
  - intros H. eapply detects_functional; [exact H|]. apply detects_loop.
  - intros ->. apply detects_loop.
Qed.

(** ** History store: merge and baseline *)

Lemma findPrevBench_Some es bench e :
  findPrevBench es bench = Some e ↔
  ∃ older newer,
    es = older ++ e :: newer ∧
    Commit.id (Benchmark.commit e) ≠ Commit.id (Benchmark.commit bench) ∧
    Forall (λ x, Commit.id (Benchmark.commit x) = Commit.id (Benchmark.commit bench)) newer.
Proof.
  unfold findPrevBench. rewrite find_Some_first. split.
  - intros (l1 & l2 & Hrev & He & Hl1).
    exists (rev l2), (rev l1). split; [|split].
    + rewrite <- (rev_involutive es), Hrev, rev_app_distr. simpl.
      by rewrite <- app_assoc.
    + apply negb_true_iff, String.eqb_neq in He. done.
    + apply Forall_rev. eapply Forall_impl; [exact Hl1|].
      intros x Hx. by apply negb_false_iff, String.eqb_eq in Hx.
  - intros (older & newer & -> & He & Hnewer).
    exists (rev newer), (rev older). split; [|split].
    + rewrite rev_app_distr. simpl. by rewrite <- app_assoc.
    + by apply negb_true_iff, String.eqb_neq.
    + apply Forall_rev. eapply Forall_impl; [exact Hnewer|].
      intros x Hx. by apply negb_false_iff, String.eqb_eq.
Qed.

Lemma findPrevBench_None es bench :
  findPrevBench es bench = None ↔
  Forall (λ x, Commit.id (Benchmark.commit x) = Commit.id (Benchmark.commit bench)) es.
Proof.
  unfold findPrevBench. rewrite find_None_all. split; intros H.
  - rewrite <- (rev_involutive es). apply Forall_rev.
    eapply Forall_impl; [exact H|].
    intros x Hx. by apply negb_false_iff, String.eqb_eq in Hx.
  - apply Forall_rev. eapply Forall_impl; [exact H|].
    intros x Hx. by apply negb_false_iff, String.eqb_eq.
Qed.

Lemma inherited_elem_of (name : string) :
  existsb (String.eqb name) Object_prototype = true ↔ name ∈ Object_prototype.
Proof.
  rewrite existsb_exists. split.
  - intros (x & Hin & ->%String.eqb_eq). by apply list_elem_of_In.
  - intros Hin. exists name. split; [by apply list_elem_of_In|apply String.eqb_refl].
Qed.

(** A merge that goes through appends, and chooses the baseline among the
    entries that were there. *)
Lemma addBenchmarkResult_Some name bench (entries merged : BenchmarkEntries) prevBench :
  addBenchmarkResult name bench entries = Some (merged, prevBench) →
  merged = <[name := default [] (entries !! name) ++ [bench]]> entries ∧
  prevBench = findPrevBench (default [] (entries !! name)) bench.
Proof.
  unfold addBenchmarkResult, getProperty.
  destruct (entries !! name); [|destruct (existsb _ _)]; naive_solver.
Qed.

(** The merge throws exactly for a suite that the history does not have and
    whose name [Object.prototype] has. *)
Lemma addBenchmarkResult_None name bench (entries : BenchmarkEntries) :
  addBenchmarkResult name bench entries = None ↔
  entries !! name = None ∧ name ∈ Object_prototype.
Proof.
  rewrite <- inherited_elem_of. unfold addBenchmarkResult, getProperty.
  destruct (entries !! name); [|destruct (existsb _ _)]; intuition congruence.
Qed.

Lemma addBenchmarkResult_merges name bench (entries : BenchmarkEntries) :
  is_Some (entries !! name) ∨ name ∉ Object_prototype →
  addBenchmarkResult name bench entries =
  Some (<[name := default [] (entries !! name) ++ [bench]]> entries,
        findPrevBench (default [] (entries !! name)) bench).
Proof.
  intros Hname.
  destruct (addBenchmarkResult name bench entries) as [[merged prevBench]|] eqn:Hadd.
  - by destruct (addBenchmarkResult_Some _ _ _ _ _ Hadd) as [-> ->].
  - apply addBenchmarkResult_None in Hadd as [Hnone Hin].
    destruct Hname as [[es Hes]|Hout]; [congruence|done].
Qed.

(** The baseline of a merge that follows another one into the same suite. *)
Lemma addBenchmarkResult_next name first second
    (entries merged merged' : BenchmarkEntries) baseline baseline' :
  addBenchmarkResult name first entries = Some (merged, baseline) →
  addBenchmarkResult name second merged = Some (merged', baseline') →
  (sameCommit second first → baseline' = baseline) ∧
  (¬ sameCommit second first → baseline' = Some first).
Proof.
  intros [-> ->]%addBenchmarkResult_Some [_ ->]%addBenchmarkResult_Some.
  rewrite lookup_insert_eq. cbn [default from_option id].
  unfold findPrevBench, sameCommit. rewrite rev_app_distr. cbn [rev app List.find].
  split.
  - intros Hsame. rewrite Hsame, String.eqb_refl. cbn [negb]. done.
  - intros Hdiff. apply String.eqb_neq in Hdiff. by rewrite Hdiff.
Qed.

Lemma mergeAll_cons name b bs (entries : BenchmarkEntries) :
  mergeAll name (b :: bs) entries =
  match addBenchmarkResult name b entries with
  | Some r => mergeAll name bs r.1
  | None => None
  end.
Proof.
  unfold mergeAll. simpl. destruct (addBenchmarkResult name b entries) as [r|]; [done|].
  simpl. induction bs as [|b' bs IH]; [done|exact IH].
Qed.

Lemma mergeAll_merges name bs (entries : BenchmarkEntries) :
  is_Some (entries !! name) ∨ name ∉ Object_prototype →
  ∃ all,
    mergeAll name bs entries = Some all ∧
    default [] (all !! name) = default [] (entries !! name) ++ bs ∧
    (∀ n, n ≠ name → all !! n = entries !! n).
Proof.
  revert entries. induction bs as [|b bs IH]; intros entries Hname.
  - exists entries. split; [done|]. by rewrite app_nil_r.
  - rewrite mergeAll_cons, addBenchmarkResult_merges by done. cbn [fst].
    destruct (IH (<[name := default [] (entries !! name) ++ [b]]> entries))
      as (all & Hall & Hsuite & Hothers).
    { left. rewrite lookup_insert_eq. by eexists. }
    exists all. split; [exact Hall|]. split.
    + rewrite Hsuite, lookup_insert_eq. simpl. by rewrite <- app_assoc.
    + intros n Hn. rewrite Hothers by done. by rewrite lookup_insert_ne.
Qed.

(** C6. A suite that the history does not have and whose name is one of
    [Object.prototype], such as [toString], is not created: the test
    [=== undefined] of the merge finds the inherited function, the [else]
    branch throws, and so does merging any sequence of entries that starts
    there. The first publish of such a suite into an empty working copy ends
    on that error after the final checkout, with no data file written and
    nothing staged or committed. *)
Theorem merge_throws_on_inherited_name :
  let bench := Sample.entry "A" cargo 100 in
  let publish :=
    writeBenchmark (rt:=Sample.runtime) (host:=Sample.calm) bench Replay.inheriting
      Sample.fresh in
  Config.name Replay.inheriting = "toString" ∧
  addBenchmarkResult "toString" bench ∅ = None ∧
  mergeAll "toString" [bench; Sample.entry "B" cargo 100] ∅ = None ∧
  publish.1 = Throw (Rejected (ErrorObject "entries.slice is not a function")) ∧
  files publish.2 !! "dev/bench/data.js" = None ∧
  calls publish.2 = [ GitCmd ["switch"; "gh-pages"];
                      GitPull (Some "token") "gh-pages" [];
                      MkdirP "dev/bench";
                      GitCmd ["checkout"; "-"] ].
Proof. cbv zeta. repeat split; by vm_compute. Qed.

(** ** JavaScript strings *)

Lemma slice_app (p s : string) : Js.slice (String.length p) (p +:+ s) = s.
Proof. induction p as [|a p IH]; [done|]. simpl. exact IH. Qed.

Lemma startsWith_app (p s : string) : Js.startsWith p (p +:+ s) = true.
Proof.
  induction p as [|a p IH]; [done|]. simpl.
  rewrite bool_decide_eq_true_2; [exact IH|done].
Qed.

Lemma startsWith_inv (p s : string) :
  Js.startsWith p s = true → ∃ rest, s = p +:+ rest.
Proof.
  revert s. induction p as [|a p IH]; intros s; simpl.
  - intros _. by exists s.
  - destruct s as [|b s]; [done|].
    intros [Hab Hps]%andb_true_iff. apply bool_decide_eq_true_1 in Hab as ->.
    destruct (IH _ Hps) as [rest ->]. by exists rest.
Qed.

Lemma includes_unfold (p s : string) :
  Js.includes p s =
  Js.startsWith p s ||
  match s with EmptyString => false | String _ s' => Js.includes p s' end.
Proof. by destruct s. Qed.

(** [includes] is true exactly when the needle is a substring. *)
Lemma includes_substring (p s : string) :
  Js.includes p s = true ↔ ∃ before rest, s = before +:+ p +:+ rest.
Proof.
  split.
  - induction s as [|b s IH]; simpl.
    + rewrite orb_false_r. intros [rest ->]%startsWith_inv. by exists EmptyString, rest.
    + intros [[rest ->]%startsWith_inv|Hin]%orb_true_iff.
      * by exists EmptyString, rest.
      * destruct (IH Hin) as (before & rest & ->). by exists (String b before), rest.
  - intros (before & rest & ->).
    induction before as [|b before IH].
    + change (EmptyString +:+ p +:+ rest) with (p +:+ rest).
      rewrite includes_unfold, startsWith_app. done.
    + change (String b before +:+ p +:+ rest) with (String b (before +:+ p +:+ rest)).
      rewrite includes_unfold, IH. apply orb_true_r.
Qed.

(** ** The history store *)

Section Store.
Context {rt : Runtime} {host : Host}.

Lemma loadDataJson_run (dataPath : string) (w : World) :
  loadDataJson dataPath w =
  (Ok (match files w !! dataPath with
       | Some script =>
           default emptyDataJson
             (JSON_parse (Js.slice (String.length SCRIPT_PREFIX) script))
       | None => emptyDataJson
       end), w).
Proof.
  unfold loadDataJson, tryCatch, bind, readFile, parse.
  destruct (files w !! dataPath) as [script|]; [|done].
  by destruct (JSON_parse _).
Qed.

(** C3. [loadDataJson] always returns, without touching the world; when the
    file cannot be read, and when what follows the prefix does not parse, it
    returns the empty default history. *)
Theorem loadDataJson_fails_closed (dataPath : string) (w : World) :
  ∃ data,
    loadDataJson dataPath w = (Ok data, w) ∧
    (files w !! dataPath = None → data = emptyDataJson) ∧
    (∀ script,
        files w !! dataPath = Some script →
        JSON_parse (Js.slice (String.length SCRIPT_PREFIX) script) = None →
        data = emptyDataJson).
Proof.
  eexists. split; [apply loadDataJson_run|]. split.
  - by intros ->.
  - intros script -> Hparse. by rewrite Hparse.
Qed.

(** C4. When the write goes through, [storeDataJson] leaves a file of which
    [loadDataJson] drops exactly the prefix: what is parsed is the text
    [JSON.stringify] gave, so [loadDataJson] returns the document that this
    text stands for. *)
Theorem store_load_roundtrip (dataPath : string) (data data' : DataJson.t)
    (w : World) :
  writeFile_outcome dataPath (SCRIPT_PREFIX +:+ JSON_stringify data) w = None →
  JSON_parse (JSON_stringify data) = Some data' →
  ∃ w' script,
    storeDataJson dataPath data w = (Ok tt, w') ∧
    files w' !! dataPath = Some script ∧
    Js.slice (String.length SCRIPT_PREFIX) script = JSON_stringify data ∧
    loadDataJson dataPath w' = (Ok data', w').
Proof.
  intros Hwrite Hparse.
  unfold storeDataJson, writeFile. rewrite Hwrite.
  eexists _, _. split; [reflexivity|]. cbn [files].
  split; [apply lookup_insert_eq|].
  split; [apply slice_app|].
  rewrite loadDataJson_run. cbn [files].
  by rewrite lookup_insert_eq, slice_app, Hparse.
Qed.

(** C9, amended. [loadDataJson] drops the first 24 code units of the file,
    the length of the prefix, whatever they are: when what follows them
    parses, it returns that document. *)
Theorem loadDataJson_drops_24 (dataPath script : string) (data : DataJson.t)
    (w : World) :
  files w !! dataPath = Some script →
  JSON_parse (Js.slice 24 script) = Some data →
  String.length SCRIPT_PREFIX = 24 ∧
  loadDataJson dataPath w = (Ok data, w).
Proof.
  intros Hfile Hparse. split; [done|].
  rewrite loadDataJson_run, Hfile.
  change (String.length SCRIPT_PREFIX) with 24. by rewrite Hparse.
Qed.

End Store.

(** C9, as stated, fails on a file whose first 23 code units are followed by
    a document: the program drops 24 and finds no document. *)
Lemma loadDataJson_not_23 :
  files Sample.shortWorld !! "dev/bench/data.js" = Some Sample.shortScript ∧
  JSON_parse (Runtime:=Sample.runtime) (Js.slice 23 Sample.shortScript) = Some Sample.blank ∧
  loadDataJson (rt:=Sample.runtime) (host:=Sample.calm) "dev/bench/data.js" Sample.shortWorld
    = (Ok emptyDataJson, Sample.shortWorld) ∧
  emptyDataJson ≠ Sample.blank.
Proof.
  split; [by vm_compute|]. split; [by vm_compute|].
  split; [by vm_compute|]. intros [=].
Qed.

(** C9 on a data file that holds the sample history. *)
Lemma loadDataJson_drops_24_witness :
  String.length SCRIPT_PREFIX = 24 ∧
  loadDataJson (rt:=Sample.runtime) (host:=Sample.calm) "dev/bench/data.js"
    (Sample.world Sample.history)
  = (Ok Sample.history, Sample.world Sample.history).
Proof.
  apply (loadDataJson_drops_24 (rt:=Sample.runtime) (host:=Sample.calm)
           "dev/bench/data.js" (SCRIPT_PREFIX +:+ Sample.stringify Sample.history)).
  - vm_compute. reflexivity.
  - vm_compute. reflexivity.
Defined.

(** C4 on the sample history, stored in an empty working copy. *)
Lemma store_load_roundtrip_witness :
  ∃ w' script,
    storeDataJson (rt:=Sample.runtime) (host:=Sample.calm)
      "dev/bench/data.js" Sample.history Sample.fresh = (Ok tt, w') ∧
    files w' !! "dev/bench/data.js" = Some script ∧
    Js.slice (String.length SCRIPT_PREFIX) script = Sample.stringify Sample.history ∧
    loadDataJson (rt:=Sample.runtime) (host:=Sample.calm) "dev/bench/data.js" w'
      = (Ok Sample.history, w').
Proof.
  apply (store_load_roundtrip (rt:=Sample.runtime) (host:=Sample.calm)).
  - reflexivity.
  - vm_compute. reflexivity.
Defined.

(** ** Push with one retry *)

Section Push.
Context {rt : Runtime} {host : Host}.

Lemma isRemoteRejected_remoteRejected (err : rejection) :
  isRemoteRejected (Rejected err) = true ↔ remoteRejected err.
Proof.
  unfold isRemoteRejected, remoteRejected. destruct err as [m|v]; simpl.
  - rewrite includes_substring. split.
    + intros (before & rest & ->). by exists before, rest.
    + intros (before & rest & [= ->]). by exists before, rest.
  - split; [done|]. by intros (? & ? & ?).
Qed.

Lemma call_run (c : Call) (w : World) :
  call c w =
  (match outcome c w with None => Ok tt | Some e => Throw (Rejected e) end,
   happened c w).
Proof. unfold call. by destruct (outcome c w). Qed.

(** C5, amended. A push that goes through is the only call. A push that
    fails without the remote-rejected marker is the only call too, and its
    error is thrown on. A push that fails with the marker is followed by one
    pull with [--rebase]; when the pull returns, by one more push and nothing
    else, whose failure is thrown on; when the pull fails, its failure is
    thrown on. *)
Theorem pushGitHubPages_retries_once (token branch : string) (w : World) :
  let push := GitPush token branch in
  let pull := GitPull (Some token) branch ["--rebase"] in
  (outcome push w = None →
   pushGitHubPages token branch w = (Ok tt, happened push w)) ∧
  (∀ err, outcome push w = Some err → ¬ remoteRejected err →
   pushGitHubPages token branch w = (Throw (Rejected err), happened push w)) ∧
  (∀ err, outcome push w = Some err → remoteRejected err →
   (∀ e, outcome pull (happened push w) = Some e →
      pushGitHubPages token branch w
      = (Throw (Rejected e), happened pull (happened push w))) ∧
   (outcome pull (happened push w) = None →
      pushGitHubPages token branch w
      = (match outcome push (happened pull (happened push w)) with
         | None => Ok tt
         | Some e => Throw (Rejected e)
         end,
         happened push (happened pull (happened push w))))).
Proof.
  cbv zeta.
  unfold pushGitHubPages, bind, tryCatch. rewrite call_run.
  split; [|split].
  - by intros ->.
  - intros err -> Hno.
    destruct (isRemoteRejected (Rejected err)) eqn:Hrr; [|done].
    by apply isRemoteRejected_remoteRejected in Hrr.
  - intros err -> Hyes. apply isRemoteRejected_remoteRejected in Hyes.
    rewrite Hyes. unfold ret. rewrite call_run. split.
    + by intros e ->.
    + intros ->. by rewrite call_run.
Qed.

End Push.

(** C5, as stated, fails when the rebase stops on a conflict: the marker was
    there, one pull with rebase was made and no push followed. *)
Lemma pushGitHubPages_no_second_push :
  outcome (Host:=Sample.host Sample.conflicting None)
    (GitPush "token" "gh-pages") Sample.fresh
  = Some (ErrorObject " ! [remote rejected] gh-pages -> gh-pages (fetch first)") ∧
  Js.includes "[remote rejected]" " ! [remote rejected] gh-pages -> gh-pages (fetch first)" = true ∧
  ∃ w,
    pushGitHubPages (host:=Sample.host Sample.conflicting None)
      "token" "gh-pages" Sample.fresh
    = (Throw (Rejected (ErrorObject "CONFLICT (content): Merge conflict in dev/bench/data.js")), w) ∧
    calls w = [ GitPush "token" "gh-pages";
                GitPull (Some "token") "gh-pages" ["--rebase"] ].
Proof.
  split; [by vm_compute|]. split; [by vm_compute|].
  eexists. split; by vm_compute.
Qed.

(** ** The calls a computation makes *)

Create HintDb emits discriminated.

Section Trace.
Context {rt : Runtime} {host : Host}.

Lemma bind_Ok {A B} (m : M A) (k : A → M B) w b w2 :
  bind m k w = (Ok b, w2) →
  ∃ a w1, m w = (Ok a, w1) ∧ k a w1 = (Ok b, w2).
Proof.
  unfold bind. destruct (m w) as [[a|e] w1]; [|done]. intros H. by exists a, w1.
Qed.

Lemma bind_Throw {A B} (m : M A) (k : A → M B) w e w2 :
  bind m k w = (Throw e, w2) →
  m w = (Throw e, w2) ∨ ∃ a w1, m w = (Ok a, w1) ∧ k a w1 = (Throw e, w2).
Proof.
  unfold bind. destruct (m w) as [[a|e'] w1].
  - intros H. right. by exists a, w1.
  - intros [= -> ->]. by left.
Qed.

Lemma emits_ret {A} P (a : A) : emits P (ret a).
Proof. intros w. exists []. by rewrite app_nil_r. Qed.

Lemma emits_throw {A} P e : emits P (throw (A:=A) e).
Proof. intros w. exists []. by rewrite app_nil_r. Qed.

Lemma emits_bind {A B} P (m : M A) (k : A → M B) :
  emits P m → (∀ a, emits P (k a)) → emits P (bind m k).
Proof.
  intros Hm Hk w. unfold bind.
  destruct (Hm w) as (cs & Hcs & HP).
  destruct (m w) as [[a|e] w1]; simpl in *.
  - destruct (Hk a w1) as (cs' & Hcs' & HP').
    exists (cs ++ cs'). split; [|by apply Forall_app].
    by rewrite Hcs', Hcs, <- app_assoc.
  - by exists cs.
Qed.

Lemma emits_tryCatch {A} P (body : M A) (handler : thrown → M A) :
  emits P body → (∀ e, emits P (handler e)) → emits P (tryCatch body handler).
Proof.
  intros Hm Hk w. unfold tryCatch.
  destruct (Hm w) as (cs & Hcs & HP).
  destruct (body w) as [[a|e] w1]; simpl in *.
  - by exists cs.
  - destruct (Hk e w1) as (cs' & Hcs' & HP').
    exists (cs ++ cs'). split; [|by apply Forall_app].
    by rewrite Hcs', Hcs, <- app_assoc.
Qed.

Lemma emits_call P c : P c → emits P (call c).
Proof.
  intros Hc w. rewrite call_run. exists [c]. split; [done|]. by constructor.
Qed.

Lemma emits_createCommitComment P c : P c → emits P (createCommitComment c).
Proof.
  intros Hc w. unfold createCommitComment. exists [c].
  split; [by destruct (outcome c w)|]. by constructor.
Qed.

Lemma emits_silent {A} P (m : M A) :
  (∀ w, calls (m w).2 = calls w) → emits P m.
Proof. intros H w. exists []. by rewrite app_nil_r. Qed.

Lemma emits_writeFile P path content : emits P (writeFile path content).
Proof.
  apply emits_silent. intros w. unfold writeFile.
  by destruct (writeFile_outcome path content w).
Qed.

Lemma emits_stat P path : emits P (stat path).
Proof.
  apply emits_silent. intros w. unfold stat. by destruct (stat_outcome path w).
Qed.

Lemma emits_now P : emits P now.
Proof. by apply emits_silent. Qed.

Lemma emits_loadDataJson P dataPath : emits P (loadDataJson dataPath).
Proof. apply emits_silent. intros w. by rewrite loadDataJson_run. Qed.

Lemma emits_storeDataJson P dataPath data : emits P (storeDataJson dataPath data).
Proof. apply emits_writeFile. Qed.

Lemma emits_getCurrentRepo P : emits P getCurrentRepo.
Proof.
  unfold getCurrentRepo. destruct context_repository; [apply emits_ret|apply emits_throw].
Qed.

Lemma emits_mono {A} (P Q : Call → Prop) (m : M A) :
  (∀ c, P c → Q c) → emits P m → emits Q m.
Proof.
  intros HPQ Hm w. destruct (Hm w) as (cs & Hcs & HP).
  exists cs. split; [done|]. eapply Forall_impl; [exact HP|exact HPQ].
Qed.

Hint Resolve emits_ret emits_throw emits_call emits_createCommitComment
  emits_writeFile emits_stat emits_now emits_loadDataJson emits_storeDataJson
  emits_getCurrentRepo : emits.

(** Goes through a computation statement by statement. *)
Ltac emits_steps :=
  repeat first
    [ solve [eauto with emits]
    | apply emits_bind; [|intros ?]
    | apply emits_tryCatch; [|intros ?]
    | match goal with
      | |- emits _ (match ?x with _ => _ end) => destruct x
      | |- emits _ (if ?b then _ else _) => destruct b
      | |- emits _ (let '(_, _) := ?x in _) => destruct x
      end ].

Lemma emits_addIndexHtmlIfNeeded (P : Call → Prop) dir :
  (∀ path, P (GitCmd ["add"; path])) →
  emits P (addIndexHtmlIfNeeded dir).
Proof. intros HP. unfold addIndexHtmlIfNeeded. emits_steps. Qed.

Lemma emits_pushGitHubPages token branch :
  emits (λ c, isUpdateCall c = true) (pushGitHubPages token branch).
Proof. unfold pushGitHubPages. emits_steps. Qed.

Lemma emits_writeBenchmark_update bench config :
  emits (λ c, isUpdateCall c = true) (writeBenchmark_update bench config).
Proof.
  unfold writeBenchmark_update. cbv zeta.
  pose proof emits_pushGitHubPages.
  pose proof (λ P, emits_addIndexHtmlIfNeeded (λ c, isUpdateCall c = true) P (λ _, eq_refl)).
  emits_steps.
Qed.

(** Without a token the update makes no push, and never a comment. *)
Lemma emits_update_without_token bench config :
  truthy (Config.githubToken config) = None →
  emits (λ c, isComment c = false ∧ isPush c = false)
        (writeBenchmark_update bench config).
Proof.
  intros Htoken. unfold writeBenchmark_update. cbv zeta. rewrite Htoken.
  pose proof (λ P, emits_addIndexHtmlIfNeeded
                     (λ c, isComment c = false ∧ isPush c = false) P
                     (λ _, conj eq_refl eq_refl)).
  emits_steps.
Qed.

Lemma emits_buildAlertComment P alerts benchName cur prv threshold cc :
  emits P (buildAlertComment alerts benchName cur prv threshold cc).
Proof. unfold buildAlertComment. emits_steps. Qed.

Lemma emits_alert benchName cur prv threshold token shouldComment shouldFail cc :
  emits (λ c, isComment c = true)
        (alert benchName cur prv threshold token shouldComment shouldFail cc).
Proof.
  unfold alert, leaveComment. pose proof emits_buildAlertComment. emits_steps.
Qed.

Lemma emits_tryFinally {A} P (body : M A) (cleanup : M unit) :
  emits P body → emits P cleanup → emits P (tryFinally body cleanup).
Proof.
  intros Hm Hk w. unfold tryFinally.
  destruct (Hm w) as (cs & Hcs & HP).
  destruct (body w) as [r w1]; simpl in *.
  destruct (Hk w1) as (cs' & Hcs' & HP').
  exists (cs ++ cs'). split; [|by apply Forall_app].
  destruct (cleanup w1) as [[[]|e] w2]; simpl in *; by rewrite Hcs', Hcs, <- app_assoc.
Qed.

Lemma emits_writeBenchmark_check bench config prevBench :
  emits (λ c, isComment c = true) (writeBenchmark_check bench config prevBench).
Proof.
  unfold writeBenchmark_check. destruct prevBench; [apply emits_alert|apply emits_ret].
Qed.

Lemma emits_writeBenchmark_try bench config :
  emits (λ c, isUpdateCall c = true ∨ isComment c = true)
        (writeBenchmark_try bench config).
Proof.
  unfold writeBenchmark_try. apply emits_bind.
  - eapply emits_mono; [|apply emits_writeBenchmark_update]. naive_solver.
  - intros pb. eapply emits_mono; [|apply emits_writeBenchmark_check]. naive_solver.
Qed.

(** *** What is thrown *)

Lemma raises_ret {A} Q (a : A) : raises Q (ret a).
Proof. by intros w e w'. Qed.

Lemma raises_throw {A} (Q : thrown → Prop) e : Q e → raises Q (throw (A:=A) e).
Proof. by intros He w e' w' [= <- _]. Qed.

Lemma raises_bind {A B} Q (m : M A) (k : A → M B) :
  raises Q m → (∀ a, raises Q (k a)) → raises Q (bind m k).
Proof.
  intros Hm Hk w e w' [H|(a & w1 & _ & H)]%bind_Throw.
  - by eapply Hm.
  - by eapply Hk.
Qed.

Lemma raises_tryCatch {A} Q (body : M A) (handler : thrown → M A) :
  (∀ e, raises Q (handler e)) → raises Q (tryCatch body handler).
Proof.
  intros Hk w e w'. unfold tryCatch.
  destruct (body w) as [[a|e'] w1]; [done|]. apply Hk.
Qed.

Lemma raises_call (Q : thrown → Prop) c :
  (∀ r, Q (Rejected r)) → raises Q (call c).
Proof.
  intros HQ w e w'. rewrite call_run.
  destruct (outcome c w); [|done]. by intros [= <- _].
Qed.

Lemma raises_writeFile (Q : thrown → Prop) path content :
  (∀ r, Q (Rejected r)) → raises Q (writeFile path content).
Proof.
  intros HQ w e w'. unfold writeFile.
  destruct (writeFile_outcome path content w); [|done]. by intros [= <- _].
Qed.

Lemma raises_never {A} Q (m : M A) :
  (∀ w, ∃ a w', m w = (Ok a, w')) → raises Q m.
Proof. intros H w e w' Hm. destruct (H w) as (a & w1 & Ha). congruence. Qed.

Lemma raises_loadDataJson Q dataPath : raises Q (loadDataJson dataPath).
Proof. apply raises_never. intros w. rewrite loadDataJson_run. eauto. Qed.

Lemma raises_now Q : raises Q now.
Proof. apply raises_never. intros w. unfold now. eauto. Qed.

Lemma raises_pushGitHubPages token branch :
  raises (λ e, ∃ r, e = Rejected r) (pushGitHubPages token branch).
Proof.
  unfold pushGitHubPages. apply raises_bind.
  - intros w e w'. unfold tryCatch, bind. rewrite call_run.
    destruct (outcome _ w) as [r|]; [|done].
    destruct (isRemoteRejected _); [done|]. intros [= <- _]. by exists r.
  - intros [|]; [|apply raises_ret].
    apply raises_bind; [|intros _]; apply raises_call; eauto.
Qed.

(** The update fails only as its collaborators do. *)
Lemma raises_writeBenchmark_update bench config :
  raises (λ e, ∃ r, e = Rejected r) (writeBenchmark_update bench config).
Proof.
  unfold writeBenchmark_update. cbv zeta.
  pose proof raises_pushGitHubPages.
  repeat first
    [ solve [eauto using raises_ret, raises_loadDataJson, raises_now]
    | apply raises_call; solve [eauto]
    | apply raises_throw; solve [eauto]
    | apply raises_writeFile; solve [eauto]
    | apply raises_bind; [|intros ?]
    | apply raises_tryCatch; intros ?
    | match goal with
      | |- raises _ (match ?x with _ => _ end) => destruct x
      | |- raises _ (if ?b then _ else _) => destruct b
      | |- raises _ (let '(_, _) := ?x in _) => destruct x
      end ].
Qed.

(** *** Calls that were made for sure *)

Lemma makes_call c : makes c (call c).
Proof.
  intros w a w'. rewrite call_run. intros [= _ <-]. by exists [], [].
Qed.

Lemma makes_bind_l {A B} c (m : M A) (k : A → M B) :
  makes c m → (∀ a, emits (λ _, True) (k a)) → makes c (bind m k).
Proof.
  intros Hm Hk w b w2 (a & w1 & Ha & Hb)%bind_Ok.
  destruct (Hm _ _ _ Ha) as (before & after & Hcalls).
  destruct (Hk a w1) as (cs & Hcs & _). rewrite Hb in Hcs. simpl in Hcs.
  exists before, (after ++ cs). rewrite Hcs, Hcalls.
  by rewrite <- !app_assoc.
Qed.

Lemma makes_bind_r {A B} c (m : M A) (k : A → M B) :
  emits (λ _, True) m → (∀ a, makes c (k a)) → makes c (bind m k).
Proof.
  intros Hm Hk w b w2 (a & w1 & Ha & Hb)%bind_Ok.
  destruct (Hk _ _ _ _ Hb) as (before & after & Hcalls).
  destruct (Hm w) as (cs & Hcs & _). rewrite Ha in Hcs. simpl in Hcs.
  exists (cs ++ before), after. rewrite Hcalls, Hcs.
  by rewrite <- !app_assoc.
Qed.

Lemma emits_any {A} P (m : M A) : emits P m → emits (λ _, True) m.
Proof. apply emits_mono. done. Qed.

(** A returning update has made the commit. *)
Lemma makes_commit bench config :
  makes (GitCmd ["commit"; "-m";
                 "add " +:+ Config.name config +:+ " (" +:+ toolName (Config.tool config)
                   +:+ ") benchmark result for " +:+ Commit.id (Benchmark.commit bench)])
        (writeBenchmark_update bench config).
Proof.
  unfold writeBenchmark_update. cbv zeta.
  apply makes_bind_r; [destruct (_ && _); eauto with emits|intros _].
  apply makes_bind_r; [eauto with emits|intros _].
  apply makes_bind_r; [eauto with emits|intros data].
  apply makes_bind_r; [eauto with emits|intros lastUpdate].
  destruct (addBenchmarkResult _ _ _) as [[entries prevBench]|]; [|by intros w a w'].
  apply makes_bind_r; [eauto with emits|intros _].
  apply makes_bind_r; [eauto with emits|intros _].
  apply makes_bind_r; [by apply emits_addIndexHtmlIfNeeded|intros _].
  apply makes_bind_l; [apply makes_call|intros _].
  apply emits_bind; [|intros; apply emits_ret].
  destruct (truthy _); [|apply emits_ret].
  destruct (Config.autoPush config); [|apply emits_ret].
  eapply emits_any, emits_pushGitHubPages.
Qed.

Lemma writeBenchmark_run bench config w :
  writeBenchmark bench config w =
  match outcome (GitCmd ["switch"; Config.ghPagesBranch config]) w with
  | Some e =>
      (Throw (Rejected e), happened (GitCmd ["switch"; Config.ghPagesBranch config]) w)
  | None =>
      let rw := writeBenchmark_try bench config
                  (happened (GitCmd ["switch"; Config.ghPagesBranch config]) w) in
      (match outcome (GitCmd ["checkout"; "-"]) rw.2 with
       | None => rw.1
       | Some e => Throw (Rejected e)
       end,
       happened (GitCmd ["checkout"; "-"]) rw.2)
  end.
Proof.
  unfold writeBenchmark, bind. rewrite call_run.
  destruct (outcome _ w); [done|].
  unfold tryFinally. destruct (writeBenchmark_try _ _ _) as [r w1]. simpl.
  rewrite call_run. by destruct (outcome _ w1).
Qed.

End Trace.

(** ** The publish coordinator *)

Section Publish.
Context {rt : Runtime} {host : Host}.

(** The loop of [buildAlertComment] adds one row per alert, in order. *)
Lemma report_rows (alerts : list Alert.t) (lines : list string) :
  fold_left (λ ls a, ls ++ [alertLine a]) alerts lines
  = lines ++ (alertLine <$> alerts).
Proof.
  revert lines. induction alerts as [|a alerts IH]; intros lines; simpl.
  - by rewrite app_nil_r.
  - by rewrite IH, <- app_assoc.
Qed.

(** The report: the title, the lines of the heading, one row per alert and
    the footer, joined by line feeds. It is not built when the repository is
    not known. *)
Lemma report_shape (title : string) (heading rows footer cc : list string) (b : bool) :
  ∃ heading' footer',
    (if b then ((title :: heading) ++ rows) ++ footer ++ cc
     else ((title :: heading) ++ rows) ++ footer)
    = title :: heading' ++ rows ++ footer'.
Proof.
  destruct b.
  - exists heading, (footer ++ cc). by rewrite <- app_assoc.
  - exists heading, footer. by rewrite <- app_assoc.
Qed.

Lemma buildAlertComment_run alerts benchName cur prv threshold cc w :
  ∃ r,
    buildAlertComment alerts benchName cur prv threshold cc w = (r, w) ∧
    match context_repository with
    | Some _ =>
        ∃ heading footer,
          r = Ok (Js.join nl (alertTitle threshold :: heading
                                ++ (alertLine <$> alerts) ++ footer))
    | None => r = Throw (NoRepositoryError context_payload)
    end.
Proof.
  unfold buildAlertComment, getCurrentRepo. cbv zeta.
  destruct context_repository as [repo|].
  - eexists. split; [reflexivity|].
    rewrite report_rows.
    match goal with
    | |- ∃ heading footer,
           Ok (Js.join nl (if ?b then (((_ :: ?h) ++ _) ++ ?f) ++ ?c else _)) = _ =>
        destruct (report_shape (alertTitle threshold) h (alertLine <$> alerts) f c b)
          as (heading & footer & Hshape)
    end.
    exists heading, footer. do 2 f_equal. rewrite <- Hshape.
    destruct (bool_decide _); [|reflexivity]. by rewrite <- (app_assoc _ _ _).
  - eexists. split; reflexivity.
Qed.

(** With comment-on-alert set and no token, [alert] calls nobody: it
    returns when there is nothing to report and throws otherwise. *)
Lemma alert_without_token benchName cur prv threshold token shouldFail cc w :
  truthy token = None →
  alert benchName cur prv threshold token true shouldFail cc w =
  (match findAlerts cur prv threshold with
   | [] => Ok tt
   | _ :: _ =>
       match context_repository with
       | Some _ => Throw MissingTokenError
       | None => Throw (NoRepositoryError context_payload)
       end
   end, w).
Proof.
  intros Htoken. unfold alert. cbn [negb andb]. rewrite Htoken.
  destruct (findAlerts cur prv threshold) as [|a alerts]; [done|].
  rewrite bool_decide_eq_false_2 by done.
  destruct (buildAlertComment_run (a :: alerts) benchName cur prv threshold cc w)
    as (r & Hr & Hrepo).
  unfold bind. rewrite Hr.
  destruct context_repository.
  - by destruct Hrepo as (heading & footer & ->).
  - by rewrite Hrepo.
Qed.

(** C8, amended. When the switch to the publish branch fails, its error is
    thrown on and no checkout follows. When it returns, then whatever happens
    in the [try] block, [git checkout -] is made exactly once, as the last
    call of the publish. *)
Theorem writeBenchmark_restores (bench : Benchmark.t) (config : Config.t)
    (w : World) :
  let switch := GitCmd ["switch"; Config.ghPagesBranch config] in
  let checkout := GitCmd ["checkout"; "-"] in
  (∀ e, outcome switch w = Some e →
     writeBenchmark bench config w = (Throw (Rejected e), happened switch w)) ∧
  (outcome switch w = None →
     ∃ cs, calls (writeBenchmark bench config w).2
           = calls w ++ switch :: cs ++ [checkout] ∧
           checkout ∉ cs).
Proof.
  cbv zeta. rewrite writeBenchmark_run. split.
  - by intros e ->.
  - intros ->. cbv zeta. cbn [snd].
    destruct (emits_writeBenchmark_try bench config
                (happened (GitCmd ["switch"; Config.ghPagesBranch config]) w))
      as (cs & Hcs & HP).
    exists cs. split.
    + cbn [happened calls]. rewrite Hcs. cbn [happened calls].
      by rewrite <- !app_assoc.
    + intros Hin. rewrite Forall_forall in HP.
      by destruct (HP _ Hin).
Qed.

(** C10. With comment-on-alert set and no token: the [try] block of the
    publish raises the missing-token error only when the update returned a
    baseline for which detection finds an alert, the commit having been made
    by then; the publish ends on that error only when the block raised it;
    when no alert is found the publish ends as its final checkout does; and
    in no case is a comment posted, nor anything pushed. *)
Theorem missing_token_after_commit (bench : Benchmark.t) (config : Config.t)
    (w : World) (r : result unit) (w' : World) :
  Config.commentOnAlert config = true →
  truthy (Config.githubToken config) = None →
  writeBenchmark bench config w = (r, w') →
  let switch := GitCmd ["switch"; Config.ghPagesBranch config] in
  let checkout := GitCmd ["checkout"; "-"] in
  let commit :=
    GitCmd ["commit"; "-m";
            "add " +:+ Config.name config +:+ " (" +:+ toolName (Config.tool config)
              +:+ ") benchmark result for " +:+ Commit.id (Benchmark.commit bench)] in
  (∀ w0 w1,
     writeBenchmark_try bench config w0 = (Throw MissingTokenError, w1) →
     ∃ prevBench,
       writeBenchmark_update bench config w0 = (Ok (Some prevBench), w1) ∧
       findAlerts bench prevBench (Config.alertThreshold config) ≠ [] ∧
       ∃ before after, calls w1 = calls w0 ++ before ++ commit :: after) ∧
  (r = Throw MissingTokenError →
     ∃ w1,
       writeBenchmark_try bench config (happened switch w) = (Throw MissingTokenError, w1) ∧
       w' = happened checkout w1) ∧
  (∀ prevBench w1,
     outcome switch w = None →
     writeBenchmark_update bench config (happened switch w) = (Ok prevBench, w1) →
     from_option (λ p, findAlerts bench p (Config.alertThreshold config)) [] prevBench = [] →
     w' = happened checkout w1 ∧
     r = match outcome checkout w1 with
         | None => Ok tt
         | Some e => Throw (Rejected e)
         end) ∧
  (∃ cs, calls w' = calls w ++ cs ∧
         Forall (λ c, isComment c = false ∧ isPush c = false) cs).
Proof.
  intros Hcomment Htoken Hrun. cbv zeta.
  assert (∀ pb w1, writeBenchmark_check bench config pb w1 =
            (match from_option (λ p, findAlerts bench p (Config.alertThreshold config)) [] pb with
             | [] => Ok tt
             | _ :: _ =>
                 match context_repository with
                 | Some _ => Throw MissingTokenError
                 | None => Throw (NoRepositoryError context_payload)
                 end
             end, w1)) as Hcheck.
  { intros [p|] w1; [|done]. unfold writeBenchmark_check.
    rewrite Hcomment. by apply alert_without_token. }
  split; [|split; [|split]].
  - intros w0 w1 Htry. unfold writeBenchmark_try in Htry.
    apply bind_Throw in Htry as [Hupd|(pb & w2 & Hupd & Hchk)].
    + by destruct (raises_writeBenchmark_update _ _ _ _ _ Hupd).
    + rewrite Hcheck in Hchk.
      destruct pb as [p|]; [|done]. cbn [from_option] in Hchk.
      destruct (findAlerts bench p _) eqn:Halerts; [done|].
      injection Hchk as _ ->.
      exists p. split; [done|]. split; [by rewrite Halerts|].
      by eapply makes_commit.
  - intros ->. rewrite writeBenchmark_run in Hrun.
    destruct (outcome _ w) as [e|]; [done|]. cbv zeta in Hrun.
    destruct (writeBenchmark_try _ _ _) as [r1 w1] eqn:Htry. cbn [fst snd] in Hrun.
    destruct (outcome _ w1) as [e|]; [done|].
    injection Hrun as -> <-. by exists w1.
  - intros pb w1 Hswitch Hupd Hnone.
    rewrite writeBenchmark_run, Hswitch in Hrun. cbv zeta in Hrun.
    unfold writeBenchmark_try, bind in Hrun. rewrite Hupd, Hcheck, Hnone in Hrun.
    cbn [fst snd] in Hrun. by injection Hrun as <- <-.
  - assert (emits (λ c, isComment c = false ∧ isPush c = false)
              (writeBenchmark bench config)) as Hemits.
    { unfold writeBenchmark.
      apply emits_bind; [by apply emits_call|intros _].
      apply emits_tryFinally; [|by apply emits_call].
      apply emits_bind; [by apply emits_update_without_token|intros pb].
      apply emits_silent. intros w0. by rewrite Hcheck. }
    destruct (Hemits w) as (cs & Hcs & HP). rewrite Hrun in Hcs. by exists cs.
Qed.

Lemma call_Ok c w a w' :
  call c w = (Ok a, w') → outcome c w = None ∧ w' = happened c w.
Proof. rewrite call_run. destruct (outcome c w); [done|]. by intros [= _ <-]. Qed.

Lemma writeFile_Ok path content w a w' :
  writeFile path content w = (Ok a, w') →
  writeFile_outcome path content w = None ∧ w' = written path content w.
Proof. unfold writeFile. destruct (writeFile_outcome _ _ w); [done|]. by intros [= _ <-]. Qed.

(** The push of a publish: [pushGitHubPages] when a token is there and
    auto-push is set. *)
Lemma push_step config :
  match truthy (Config.githubToken config) with
  | Some token =>
      if Config.autoPush config
      then pushGitHubPages token (Config.ghPagesBranch config) else ret tt
  | None => ret tt
  end
  = match pushToken config with
    | Some token => pushGitHubPages token (Config.ghPagesBranch config)
    | None => ret tt
    end.
Proof. unfold pushToken. destruct (truthy _); [|done]. by destruct (Config.autoPush _). Qed.

(** What a returning update went through, world by world. *)
Lemma writeBenchmark_update_Ok bench config w prevBench w1 :
  writeBenchmark_update bench config w = (Ok prevBench, w1) →
  ∃ wa data wi,
    (if syncsFirst config
     then outcome (syncCall config) w = None ∧ wa = happened (syncCall config) w
     else wa = w) ∧
    outcome (MkdirP (Config.benchmarkDataDirPath config)) wa = None ∧
    let w0 := happened (MkdirP (Config.benchmarkDataDirPath config)) wa in
    loadDataJson (dataPath config) w0 = (Ok data, w0) ∧
    addBenchmarkResult (Config.name config) bench (DataJson.entries data)
      = Some (DataJson.entries (storedData bench config data w0), prevBench) ∧
    let text := SCRIPT_PREFIX +:+ JSON_stringify (storedData bench config data w0) in
    let ws := written (dataPath config) text w0 in
    writeFile_outcome (dataPath config) text w0 = None ∧
    outcome (GitCmd ["add"; dataPath config]) ws = None ∧
    addIndexHtmlIfNeeded (Config.benchmarkDataDirPath config)
      (happened (GitCmd ["add"; dataPath config]) ws) = (Ok tt, wi) ∧
    outcome (commitCall bench config) wi = None ∧
    match pushToken config with
    | Some token => pushGitHubPages token (Config.ghPagesBranch config)
    | None => ret tt
    end (happened (commitCall bench config) wi) = (Ok tt, w1).
Proof.
  unfold writeBenchmark_update. cbv zeta. rewrite push_step.
  fold (syncsFirst config) (dataPath config) (syncCall config) (commitCall bench config).
  intros H.
  apply bind_Ok in H as ([] & wa & Hsync & H).
  apply bind_Ok in H as ([] & w0 & [Hmkdir ->]%call_Ok & H).
  apply bind_Ok in H as (data & wl & Hload & H).
  assert (wl = happened (MkdirP (Config.benchmarkDataDirPath config)) wa) as ->.
  { pose proof (loadDataJson_run (dataPath config)
                  (happened (MkdirP (Config.benchmarkDataDirPath config)) wa)) as Hrun.
    rewrite Hload in Hrun. by injection Hrun. }
  apply bind_Ok in H as (t & wn & [= <- <-] & H).
  destruct (addBenchmarkResult _ _ _) as [[entries pb]|] eqn:Hadd; [|done].
  apply bind_Ok in H as ([] & ws & [Hwrite ->]%writeFile_Ok & H).
  apply bind_Ok in H as ([] & wd & [Hadddata ->]%call_Ok & H).
  apply bind_Ok in H as ([] & wi & Hindex & H).
  apply bind_Ok in H as ([] & wc & [Hcommit ->]%call_Ok & H).
  apply bind_Ok in H as ([] & wp & Hpush & [= <- <-]).
  exists wa, data, wi.
  split. { destruct (syncsFirst config); [by apply call_Ok in Hsync|by injection Hsync]. }
  split; [done|]. cbv zeta. split; [done|].
  unfold storedData. rewrite Hadd. cbn [from_option fst DataJson.entries].
  by repeat split.
Qed.

(** C1. The update of a publish loads the history from the data file as it
    is once the branch is synced and the directory made. The baseline that
    it hands over is the entry of the suite in that file closest to its end
    whose commit id is not the new entry's; there is none exactly when all
    entries of the suite have that id, or the suite has no entry; and then
    the alert check is skipped: the [try] block ends where the update ended.
    Otherwise the check runs on that baseline. *)
Theorem baseline_is_last_differing (bench : Benchmark.t) (config : Config.t)
    (w : World) (prevBench : option Benchmark.t) (w1 : World) :
  writeBenchmark_update bench config w = (Ok prevBench, w1) →
  let synced := if syncsFirst config then happened (syncCall config) w else w in
  let w0 := happened (MkdirP (Config.benchmarkDataDirPath config)) synced in
  ∃ data,
    loadDataJson (path_join (Config.benchmarkDataDirPath config) "data.js") w0
      = (Ok data, w0) ∧
    let es := default [] (DataJson.entries data !! Config.name config) in
    let same := λ e, Commit.id (Benchmark.commit e) = Commit.id (Benchmark.commit bench) in
    (∀ e, prevBench = Some e ↔
          ∃ older newer, es = older ++ e :: newer ∧ ¬ same e ∧ Forall same newer) ∧
    (prevBench = None ↔ Forall same es) ∧
    (prevBench = None → writeBenchmark_try bench config w = (Ok tt, w1)) ∧
    (∀ e, prevBench = Some e →
          writeBenchmark_try bench config w =
          alert (Config.name config) bench e (Config.alertThreshold config)
                (Config.githubToken config) (Config.commentOnAlert config)
                (Config.failOnAlert config) (Config.alertCommentCcUsers config) w1).
Proof.
  intros Hupd. cbv zeta.
  destruct (writeBenchmark_update_Ok _ _ _ _ _ Hupd)
    as (wa & data & wi & Hsync & _ & Hload & Hadd & _).
  assert (wa = if syncsFirst config then happened (syncCall config) w else w) as ->
    by (destruct (syncsFirst config); [by destruct Hsync|done]).
  exists data. split; [exact Hload|].
  apply addBenchmarkResult_Some in Hadd as [_ Hpb].
  split; [|split; [|split]].
  - intros e. rewrite Hpb. apply findPrevBench_Some.
  - rewrite Hpb. apply findPrevBench_None.
  - intros ->. unfold writeBenchmark_try, bind. by rewrite Hupd.
  - intros e ->. unfold writeBenchmark_try, bind. by rewrite Hupd.
Qed.

(** C7, amended. With threshold 0 the alerts are those of the compared
    measurements whose ratio is above 0. The alert step does nothing when
    neither flag is set or when there is no alert. Otherwise, the repository
    being known, the report has the first line "# Performance Report" and
    one row per alert; with fail-on-alert alone the step throws it; with
    comment-on-alert and a token it is posted as one comment, after which the
    step throws when fail-on-alert is set and returns when it is not. *)
Theorem alert_threshold_zero (benchName : string) (curEntry prevEntry : Benchmark.t)
    (token : option string) (shouldComment shouldFail : bool)
    (ccUsers : list string) (w : World) :
  let alerts := findAlerts curEntry prevEntry 0 in
  let run := alert benchName curEntry prevEntry 0 token shouldComment shouldFail ccUsers w in
  detects (Benchmark.tool curEntry) (Benchmark.benches prevEntry) 0
          (Benchmark.benches curEntry) alerts ∧
  (shouldComment = false → shouldFail = false → run = (Ok tt, w)) ∧
  (alerts = [] → run = (Ok tt, w)) ∧
  (alerts ≠ [] → ∀ repo, context_repository = Some repo →
   ∃ heading footer,
     let body :=
       Js.join nl ("# Performance Report" :: heading
                     ++ (alertLine <$> alerts) ++ footer) in
     buildAlertComment alerts benchName curEntry prevEntry 0 ccUsers w = (Ok body, w) ∧
     (shouldComment = false → shouldFail = true → run = (Throw (AlertError body), w)) ∧
     (shouldComment = true → ∀ tok, truthy token = Some tok →
      let comment :=
        CreateCommitComment tok (Repository.owner_login repo) (Repository.name repo)
                            (Commit.id (Benchmark.commit curEntry)) body in
      run =
      (match outcome comment w with
       | Some e => Throw (Rejected e)
       | None =>
           if shouldFail
           then Throw (AlertError (body +:+ nl +:+ "Comment was generated at "
                                        +:+ comment_url comment w))
           else Ok tt
       end, happened comment w))).
Proof.
  cbv zeta. split; [apply detects_loop|]. split; [|split].
  - intros -> ->. done.
  - intros Hnone. unfold alert. rewrite Hnone.
    by destruct (negb shouldComment && negb shouldFail).
  - intros Hsome repo Hrepo.
    destruct (buildAlertComment_run (findAlerts curEntry prevEntry 0) benchName
                curEntry prevEntry 0 ccUsers w) as (r & Hbuild & Hr).
    rewrite Hrepo in Hr. destruct Hr as (heading & footer & ->).
    exists heading, footer. split; [exact Hbuild|].
    change (alertTitle 0) with "# Performance Report"%string in Hbuild.
    unfold alert. rewrite bool_decide_eq_false_2 by by destruct (findAlerts _ _ _).
    split.
    + intros -> ->. cbn [negb andb]. unfold bind. by rewrite Hbuild.
    + intros -> tok ->. cbn [negb andb]. unfold bind at 1. rewrite Hbuild.
      unfold bind at 1. unfold leaveComment, getCurrentRepo. rewrite Hrepo.
      unfold bind, ret, createCommitComment.
      destruct (outcome _ w); [done|]. by destruct shouldFail.
Qed.

End Publish.

(** C8, as stated, fails when the publish branch cannot be switched to: the
    publish ends on the error of the switch and no checkout is made. *)
Lemma writeBenchmark_no_checkout :
  ∃ w,
    writeBenchmark (rt:=Sample.runtime) (host:=Sample.host Sample.branchless (Some Sample.repository))
      (Sample.entry "D" cargo 200) Sample.config (Sample.world Sample.history)
    = (Throw (Rejected (ErrorObject "fatal: invalid reference: gh-pages")), w) ∧
    calls w = [ GitCmd ["switch"; "gh-pages"] ].
Proof. eexists. split; by vm_compute. Qed.

(** C8 on a publish whose push fails: the checkout is still the last call. *)
Lemma writeBenchmark_restores_witness :
  ∃ cs, calls (writeBenchmark (rt:=Sample.runtime)
                 (host:=Sample.host Sample.offline (Some Sample.repository))
                 (Sample.entry "D" cargo 200) Sample.config
                 (Sample.world Sample.history)).2
        = calls (Sample.world Sample.history)
          ++ GitCmd ["switch"; "gh-pages"] :: cs ++ [GitCmd ["checkout"; "-"]] ∧
        GitCmd ["checkout"; "-"] ∉ cs.
Proof.
  apply (writeBenchmark_restores (rt:=Sample.runtime)
           (host:=Sample.host Sample.offline (Some Sample.repository))
           (Sample.entry "D" cargo 200) Sample.config (Sample.world Sample.history)).
  reflexivity.
Defined.

(** C7, as stated, fails on an always-report run with fail-on-alert set:
    the ratio 1 of an unchanged measurement is above 0 and the run fails. *)
Lemma threshold_zero_run_fails :
  Config.alertThreshold Sample.informational = 0%float ∧
  ∃ body w,
    writeBenchmark (rt:=Sample.runtime) (host:=Sample.calm)
      (Sample.entry "D" cargo 200) Sample.informational (Sample.world Sample.history)
    = (Throw (AlertError body), w) ∧
    Js.startsWith "# Performance Report" body = true.
Proof. split; [done|]. eexists _, _. split; by vm_compute. Qed.

(** C10 on a publish of commit C over the sample history: the ratio 2 is
    above 1.5 and there is no token. *)
Lemma missing_token_after_commit_witness :
  ∃ w1,
    writeBenchmark_try (rt:=Sample.runtime) (host:=Sample.calm)
      (Sample.entry "C" cargo 200) Sample.tokenless
      (happened (host:=Sample.calm) (GitCmd ["switch"; "gh-pages"]) (Sample.world Sample.history))
    = (Throw MissingTokenError, w1) ∧
    (writeBenchmark (rt:=Sample.runtime) (host:=Sample.calm)
       (Sample.entry "C" cargo 200) Sample.tokenless (Sample.world Sample.history)).2
    = happened (host:=Sample.calm) (GitCmd ["checkout"; "-"]) w1.
Proof.
  edestruct (missing_token_after_commit (rt:=Sample.runtime) (host:=Sample.calm)
               (Sample.entry "C" cargo 200) Sample.tokenless (Sample.world Sample.history))
    as (_ & Hraised & _ & _).
  - reflexivity.
  - reflexivity.
  - apply surjective_pairing.
  - apply Hraised. vm_compute. reflexivity.
Defined.

(** C1 on a data file with the commits A, A, B, C and a new entry for C:
    the history is loaded after the pull and the making of the directory,
    and the baseline is the entry of B. *)
Lemma baseline_is_last_differing_witness :
  let w0 :=
    happened (host:=Sample.calm) (MkdirP "dev/bench")
      (happened (host:=Sample.calm) (GitPull (Some "token") "gh-pages" [])
         (Sample.world Sample.history)) in
  ∃ data,
    loadDataJson (rt:=Sample.runtime) (host:=Sample.calm) "dev/bench/data.js" w0
      = (Ok data, w0) ∧
    (∀ e, Some (Sample.entry "B" cargo 100) = Some e ↔
          ∃ older newer,
            default [] (DataJson.entries data !! "suite") = older ++ e :: newer ∧
            Commit.id (Benchmark.commit e) ≠ "C" ∧
            Forall (λ x, Commit.id (Benchmark.commit x) = "C") newer).
Proof.
  edestruct (baseline_is_last_differing (rt:=Sample.runtime) (host:=Sample.calm)
               (Sample.entry "C" cargo 200) Sample.config (Sample.world Sample.history)
               (Some (Sample.entry "B" cargo 100)))
    as (data & Hload & Hsome & _).
  - vm_compute. reflexivity.
  - exists data. split; [exact Hload|exact Hsome].
Defined.

(** ** The examples of the specification *)

Example baseline_AABC_C :
  findPrevBench [ Sample.entry "A" cargo 100; Sample.entry "A" cargo 100;
                  Sample.entry "B" cargo 100; Sample.entry "C" cargo 200 ]
                (Sample.entry "C" cargo 200)
  = Some (Sample.entry "B" cargo 100).
Proof. reflexivity. Qed.

Example rerun_has_no_baseline :
  findPrevBench [ Sample.entry "A" cargo 100; Sample.entry "A" cargo 100 ]
                (Sample.entry "A" cargo 200)
  = None.
Proof. reflexivity. Qed.

Example smaller_is_better_doubles :
  Alert.ratio <$> findAlerts (Sample.entry "B" cargo 200) (Sample.entry "A" cargo 100) 1.5
  = [2%float].
Proof. vm_compute. reflexivity. Qed.

Example bigger_is_better_halves :
  Alert.ratio <$> findAlerts (Sample.entry "B" pytest 100) (Sample.entry "A" pytest 200) 1.5
  = [2%float].
Proof. vm_compute. reflexivity. Qed.

Example unchanged_alerts_at_zero :
  Alert.ratio <$> findAlerts (Sample.entry "B" go 100) (Sample.entry "A" go 100) 0
  = [1%float].
Proof. vm_compute. reflexivity. Qed.

Example unknown_measurement_is_skipped :
  findAlerts (Sample.entry "B" go 200)
             {| Benchmark.commit := Benchmark.commit (Sample.entry "A" go 100);
                Benchmark.tool := go;
                Benchmark.benches := [] |} 0
  = [].
Proof. reflexivity. Qed.

Example prefix_length : String.length SCRIPT_PREFIX = 24.
Proof. reflexivity. Qed.

Example first_run_loads_default :
  loadDataJson (rt:=Sample.runtime) (host:=Sample.calm) "dev/bench/data.js" Sample.fresh
  = (Ok emptyDataJson, Sample.fresh).
Proof. reflexivity. Qed.

Example first_run_checks_nothing :
  calls (writeBenchmark (rt:=Sample.runtime) (host:=Sample.calm)
           (Sample.entry "A" cargo 200) Sample.informational Sample.fresh).2
  = [ GitCmd ["switch"; "gh-pages"]; GitPull (Some "token") "gh-pages" [];
      MkdirP "dev/bench"; GitCmd ["add"; "dev/bench/data.js"];
      GitCmd ["add"; "dev/bench/index.html"];
      GitCmd ["commit"; "-m"; "add suite (cargo) benchmark result for A"];
      GitPush "token" "gh-pages"; GitCmd ["checkout"; "-"] ].
Proof. vm_compute. reflexivity. Qed.

Example race_is_retried_once :
  calls (pushGitHubPages (host:=Sample.host Sample.raced None)
           "token" "gh-pages" Sample.fresh).2
  = [ GitPush "token" "gh-pages";
      GitPull (Some "token") "gh-pages" ["--rebase"];
      GitPush "token" "gh-pages" ].
Proof. vm_compute. reflexivity. Qed.

Example other_failure_is_not_retried :
  calls (pushGitHubPages (host:=Sample.host Sample.offline None)
           "token" "gh-pages" Sample.fresh).2
  = [ GitPush "token" "gh-pages" ].
Proof. vm_compute. reflexivity. Qed.

Example always_report_run :
  (let '(r, w) :=
     writeBenchmark (rt:=Sample.runtime) (host:=Sample.calm)
       (Sample.entry "D" cargo 200) Sample.reporting (Sample.world Sample.history) in
   (r, isComment <$> calls w))
  = (Ok tt, [false; false; false; false; false; true; false]).
Proof. vm_compute. reflexivity. Qed.

(** * Further properties *)

(** ** Regression detector: composition and the corners of the numbers *)

Lemma findAlerts_loop_split cur prv th (xs ys : list BenchmarkResult.t) :
  fold_left (findAlerts_step cur prv th) (xs ++ ys) []
  = fold_left (findAlerts_step cur prv th) xs []
    ++ fold_left (findAlerts_step cur prv th) ys [].
Proof. by rewrite fold_left_app, findAlerts_loop_app. Qed.

(** The loop reads the tool of the current entry, not its measurements. *)
Lemma findAlerts_step_withBenches cur prv th bs :
  findAlerts_step (withBenches cur bs) prv th = findAlerts_step cur prv th.
Proof. reflexivity. Qed.

(** X1. The alerts of a run are those of any first part of its measurements
    followed by those of the rest: what one measurement gives does not
    depend on the other measurements of the run. *)
Theorem findAlerts_app (curEntry prevEntry : Benchmark.t) (threshold : number)
    (xs ys : list BenchmarkResult.t) :
  findAlerts (withBenches curEntry (xs ++ ys)) prevEntry threshold
  = findAlerts (withBenches curEntry xs) prevEntry threshold
    ++ findAlerts (withBenches curEntry ys) prevEntry threshold.
Proof.
  unfold findAlerts. cbn [withBenches Benchmark.benches].
  rewrite !(findAlerts_step_withBenches curEntry). apply findAlerts_loop_split.
Qed.

(** Every alert passed the test of the loop. *)
Lemma findAlerts_above cur prv th :
  Forall (λ a, gt (Alert.ratio a) th = true ∧
               Alert.ratio a = ratioOf (Benchmark.tool cur) (Alert.current a) (Alert.prev a))
         (findAlerts cur prv th).
Proof.
  unfold findAlerts. induction (Benchmark.benches cur) as [|c cs IH]; simpl; [constructor|].
  rewrite findAlerts_loop_app. apply Forall_app. split; [|exact IH].
  unfold findAlerts_step. destruct (findByName _ _) as [p|]; [|constructor].
  destruct (gt _ _) eqn:Hgt; [|constructor]. by repeat constructor.
Qed.

(** A measurement that passes the test of the loop has its alert. *)
Lemma findAlerts_complete cur prv th c p :
  c ∈ Benchmark.benches cur →
  findByName (BenchmarkResult.name c) (Benchmark.benches prv) = Some p →
  gt (ratioOf (Benchmark.tool cur) c p) th = true →
  {| Alert.current := c; Alert.prev := p;
     Alert.ratio := ratioOf (Benchmark.tool cur) c p |} ∈ findAlerts cur prv th.
Proof.
  intros Hin Hfind Hgt. unfold findAlerts.
  induction (Benchmark.benches cur) as [|c' cs IH]; [by apply elem_of_nil in Hin|].
  simpl. rewrite findAlerts_loop_app. apply elem_of_app.
  apply elem_of_cons in Hin as [<-|Hin].
  - left. unfold findAlerts_step. rewrite Hfind, Hgt. by apply list_elem_of_singleton.
  - right. by apply IH.
Qed.

Lemma gt_nan_l (th : number) : gt nan th = false.
Proof. unfold gt. rewrite ltb_spec. by destruct (Prim2SF th). Qed.

Lemma gt_nan_r (r : number) : gt r nan = false.
Proof. unfold gt. by rewrite ltb_spec. Qed.

Lemma div_nan_l (y : number) : (nan / y)%float = nan.
Proof. apply Prim2SF_inj. by rewrite div_spec. Qed.

Lemma div_nan_r (x : number) : (x / nan)%float = nan.
Proof. apply Prim2SF_inj. rewrite div_spec. by destruct (Prim2SF x). Qed.

(** X2. NaN never alerts: with a NaN threshold there is no alert; no alert
    has a NaN ratio; and no alert is about a measurement whose current or
    baseline value is NaN. *)
Theorem findAlerts_never_nan (curEntry prevEntry : Benchmark.t) (threshold : number) :
  findAlerts curEntry prevEntry nan = [] ∧
  Forall (λ a, Alert.ratio a ≠ nan ∧
               BenchmarkResult.value (Alert.current a) ≠ nan ∧
               BenchmarkResult.value (Alert.prev a) ≠ nan)
         (findAlerts curEntry prevEntry threshold).
Proof.
  split.
  - pose proof (findAlerts_above curEntry prevEntry nan) as H.
    destruct (findAlerts curEntry prevEntry nan) as [|a l]; [done|].
    apply Forall_cons in H as [[Hgt _] _]. by rewrite gt_nan_r in Hgt.
  - eapply Forall_impl; [apply findAlerts_above|].
    intros a [Hgt Hratio]. cbn beta in *.
    assert (Alert.ratio a ≠ nan) as Hnan.
    { intros E. by rewrite E, gt_nan_l in Hgt. }
    split; [done|].
    rewrite Hratio in Hnan. unfold ratioOf in Hnan.
    split; intros E; rewrite E in Hnan;
      destruct (biggerIsBetter _); by rewrite ?div_nan_l, ?div_nan_r in Hnan.
Qed.

Lemma div_positive_zero (v : number) :
  (0 <? v)%float = true → (v / 0)%float = infinity.
Proof.
  intros Hpos. apply Prim2SF_inj. rewrite div_spec.
  rewrite ltb_spec in Hpos.
  change (Prim2SF 0) with (S754_zero false) in *.
  change (Prim2SF infinity) with (S754_infinity false).
  by destruct (Prim2SF v) as [[]|[]| |[] m e].
Qed.

(** X3. Division by a zero baseline is not an error: for a tool where
    smaller is better, a positive current value over a baseline value 0 has
    the ratio Infinity, and alerts for every threshold below Infinity. *)
Theorem zero_baseline_alerts (curEntry prevEntry : Benchmark.t) (threshold : number)
    (c p : BenchmarkResult.t) :
  biggerIsBetter (Benchmark.tool curEntry) = false →
  c ∈ Benchmark.benches curEntry →
  findByName (BenchmarkResult.name c) (Benchmark.benches prevEntry) = Some p →
  BenchmarkResult.value p = 0%float →
  (0 <? BenchmarkResult.value c)%float = true →
  (threshold <? infinity)%float = true →
  {| Alert.current := c; Alert.prev := p; Alert.ratio := infinity |}
    ∈ findAlerts curEntry prevEntry threshold.
Proof.
  intros Htool Hin Hfind Hzero Hpos Hth.
  assert (ratioOf (Benchmark.tool curEntry) c p = infinity) as Hratio.
  { unfold ratioOf. rewrite Htool, Hzero. by apply div_positive_zero. }
  rewrite <- Hratio. apply findAlerts_complete; [done..|].
  by rewrite Hratio.
Qed.

(** ** History store: merges in a row *)

(** X4. Two merges in a row into one suite: once the first has gone
    through, so does the second, and its baseline is the entry of the first
    when their commit ids differ, and the baseline the first had when they
    are the same, as for a rerun. *)
Theorem consecutive_merges (name : string) (first second : Benchmark.t)
    (entries merged : BenchmarkEntries) (baseline : option Benchmark.t) :
  addBenchmarkResult name first entries = Some (merged, baseline) →
  ∃ merged' baseline',
    addBenchmarkResult name second merged = Some (merged', baseline') ∧
    (sameCommit second first → baseline' = baseline) ∧
    (¬ sameCommit second first → baseline' = Some first).
Proof.
  intros Hfirst.
  assert (is_Some (merged !! name)) as Hown.
  { apply addBenchmarkResult_Some in Hfirst as [-> _].
    rewrite lookup_insert_eq. by eexists. }
  eexists _, _. split; [apply addBenchmarkResult_merges; by left|].
  eapply addBenchmarkResult_next; [exact Hfirst|].
  apply addBenchmarkResult_merges. by left.
Qed.

(** X21. The history is append-only for every suite that can be merged
    into, that is one the history has, or one whose name is not a property
    of [Object.prototype]: the merge goes through and leaves under the suite
    name the entries it had, in their order, followed by the new entry, and
    every other suite as it was. Merging the entries [bs] one after the other
    leaves the suite's former entries followed by [bs] in order of arrival,
    which is [bs] itself, with its length, for a suite that was not there. *)
Theorem merge_is_append_only (name : string) (bench : Benchmark.t)
    (bs : list Benchmark.t) (entries : BenchmarkEntries) :
  is_Some (entries !! name) ∨ name ∉ Object_prototype →
  ∃ merged prevBench all,
    addBenchmarkResult name bench entries = Some (merged, prevBench) ∧
    mergeAll name bs entries = Some all ∧
    merged !! name = Some (default [] (entries !! name) ++ [bench]) ∧
    (∀ n, n ≠ name → merged !! n = entries !! n) ∧
    default [] (all !! name) = default [] (entries !! name) ++ bs ∧
    (entries !! name = None →
       default [] (all !! name) = bs ∧ length (default [] (all !! name)) = length bs) ∧
    (∀ n, n ≠ name → all !! n = entries !! n).
Proof.
  intros Hname.
  destruct (mergeAll_merges name bs entries Hname) as (all & Hall & Hsuite & Hothers).
  eexists _, _, all. split; [by apply addBenchmarkResult_merges|].
  split; [exact Hall|].
  split; [apply lookup_insert_eq|].
  split; [by intros n Hn; rewrite lookup_insert_ne|].
  split; [exact Hsuite|].
  split; [|exact Hothers].
  intros Hnone. rewrite Hsuite, Hnone. done.
Qed.

(** ** History store: other files, short files *)

Section StoreMore.
Context {rt : Runtime} {host : Host}.

Lemma slice_short (n : nat) (s : string) :
  String.length s ≤ n → Js.slice n s = EmptyString.
Proof.
  revert s. induction n as [|n IH]; intros [|a s]; simpl; try done; try lia.
  intros H. apply IH. lia.
Qed.

(** X5. A data file that is no longer than the prefix holds no document:
    as [JSON.parse] rejects the empty text, loading it gives the empty
    default history. *)
Theorem loadDataJson_short_file (dataPath script : string) (w : World) :
  JSON_parse EmptyString = None →
  files w !! dataPath = Some script →
  String.length script ≤ String.length SCRIPT_PREFIX →
  loadDataJson dataPath w = (Ok emptyDataJson, w).
Proof.
  intros Hempty Hfile Hshort.
  rewrite loadDataJson_run, Hfile, slice_short by done. by rewrite Hempty.
Qed.

(** X7. The default page is written only when [fs.stat] finds none: an
    existing [index.html] is neither overwritten nor staged. When there is
    none, the default page is written and then staged with [git add]; when
    that write fails, its error is thrown and nothing is staged: no call is
    made, and only what is under the path of the page may have changed. *)
Theorem addIndexHtmlIfNeeded_only_once (dir : string) (w : World) :
  let indexHtml := path_join dir "index.html" in
  let written :=
    {| files := <[indexHtml := DEFAULT_INDEX_HTML]> (files w); calls := calls w |} in
  (stat_outcome indexHtml w = None → addIndexHtmlIfNeeded dir w = (Ok tt, w)) ∧
  (stat_outcome indexHtml w ≠ None →
     (∀ e, writeFile_outcome indexHtml DEFAULT_INDEX_HTML w = Some e →
        addIndexHtmlIfNeeded dir w
          = (Throw (Rejected e), failedWrite indexHtml DEFAULT_INDEX_HTML w) ∧
        calls (addIndexHtmlIfNeeded dir w).2 = calls w) ∧
     (writeFile_outcome indexHtml DEFAULT_INDEX_HTML w = None →
        addIndexHtmlIfNeeded dir w = call (GitCmd ["add"; indexHtml]) written ∧
        calls (addIndexHtmlIfNeeded dir w).2 = calls w ++ [GitCmd ["add"; indexHtml]] ∧
        files written !! indexHtml = Some DEFAULT_INDEX_HTML)).
Proof.
  cbv zeta. unfold addIndexHtmlIfNeeded, bind, tryCatch, stat, writeFile, ret.
  destruct (stat_outcome _ w) as [e0|]; (split; [done|]); [|done].
  intros _. destruct (writeFile_outcome _ _ w) as [e|].
  - split; [|done]. by intros ? [= ->].
  - split; [done|]. intros _. split; [done|].
    split; [by rewrite call_run|]. cbn [files]. apply lookup_insert_eq.
Qed.

End StoreMore.

(** ** Notification: what the alert step does and when it fails *)

Section AlertMore.
Context {rt : Runtime} {host : Host}.

Lemma append_empty_r (s : string) : s +:+ EmptyString = s.
Proof.
  induction s as [|a s IH]; [done|].
  change (String a (s +:+ EmptyString) = String a s). by rewrite IH.
Qed.

(** The alert step once the flags and the alerts let it build a report. *)
Lemma alert_reporting benchName cur prv th token shouldComment shouldFail cc w :
  shouldComment || shouldFail = true →
  findAlerts cur prv th ≠ [] →
  alert benchName cur prv th token shouldComment shouldFail cc w =
  bind (buildAlertComment (findAlerts cur prv th) benchName cur prv th cc)
       (λ body,
          bind (if shouldComment then
                  match truthy token with
                  | None => throw MissingTokenError
                  | Some tok =>
                      bind (leaveComment (Commit.id (Benchmark.commit cur)) body tok)
                           (λ url, ret (body +:+ nl +:+ "Comment was generated at " +:+ url))
                  end
                else ret body)
               (λ message, if shouldFail then throw (AlertError message) else ret tt)) w.
Proof.
  intros Hflags Halerts. unfold alert.
  rewrite bool_decide_eq_false_2 by by destruct (findAlerts _ _ _).
  by destruct shouldComment, shouldFail.
Qed.

Lemma alert_idle benchName cur prv th token shouldComment shouldFail cc w :
  shouldComment || shouldFail = false ∨ findAlerts cur prv th = [] →
  alert benchName cur prv th token shouldComment shouldFail cc w = (Ok tt, w).
Proof.
  unfold alert. intros [Hflags|Halerts].
  - by apply orb_false_iff in Hflags as [-> ->].
  - rewrite Halerts. by destruct (negb shouldComment && negb shouldFail).
Qed.

Lemma leaveComment_run commitId body tok repo w :
  context_repository = Some repo →
  leaveComment commitId body tok w =
  createCommitComment
    (CreateCommitComment tok (Repository.owner_login repo) (Repository.name repo)
                         commitId body) w.
Proof. intros Hrepo. unfold leaveComment, getCurrentRepo, bind. by rewrite Hrepo. Qed.

(** X8. When a report is due (a flag is set and there is an alert) and the
    repository is not in the payload, the alert step throws the
    repository error at once: before the token is looked at, and without
    posting anything. *)
Theorem alert_needs_repository (benchName : string) (curEntry prevEntry : Benchmark.t)
    (threshold : number) (token : option string) (shouldComment shouldFail : bool)
    (ccUsers : list string) (w : World) :
  context_repository = None →
  shouldComment || shouldFail = true →
  findAlerts curEntry prevEntry threshold ≠ [] →
  alert benchName curEntry prevEntry threshold token shouldComment shouldFail ccUsers w
  = (Throw (NoRepositoryError context_payload), w).
Proof.
  intros Hrepo Hflags Halerts. rewrite alert_reporting by done.
  destruct (buildAlertComment_run (findAlerts curEntry prevEntry threshold) benchName
              curEntry prevEntry threshold ccUsers w) as (r & Hbuild & Hr).
  rewrite Hrepo in Hr. subst r. unfold bind at 1. by rewrite Hbuild.
Qed.

(** X9. The alert step leaves the world as it found it, or posts exactly
    one comment; it posts only when comment-on-alert is set, a token is
    there, the repository is known and there is an alert, and then the
    comment carries the report, on the commit of the current entry, in the
    repository of the payload, under that token. *)
Theorem alert_posts_one_comment (benchName : string) (curEntry prevEntry : Benchmark.t)
    (threshold : number) (token : option string) (shouldComment shouldFail : bool)
    (ccUsers : list string) (w : World) :
  let w' := (alert benchName curEntry prevEntry threshold token
                   shouldComment shouldFail ccUsers w).2 in
  w' = w ∨
  ∃ tok repo body,
    shouldComment = true ∧
    truthy token = Some tok ∧
    context_repository = Some repo ∧
    findAlerts curEntry prevEntry threshold ≠ [] ∧
    buildAlertComment (findAlerts curEntry prevEntry threshold) benchName
                      curEntry prevEntry threshold ccUsers w = (Ok body, w) ∧
    w' = happened (CreateCommitComment tok (Repository.owner_login repo)
                     (Repository.name repo)
                     (Commit.id (Benchmark.commit curEntry)) body) w.
Proof.
  cbv zeta.
  destruct (alert _ _ _ _ _ _ _ _ w) as [r1 w1] eqn:Hrun. cbn [snd].
  destruct (decide (findAlerts curEntry prevEntry threshold = [])) as [Hnone|Hsome].
  { left. rewrite alert_idle in Hrun by by right. by injection Hrun. }
  destruct (shouldComment || shouldFail) eqn:Hflags.
  2:{ left. rewrite alert_idle in Hrun by by left. by injection Hrun. }
  rewrite alert_reporting in Hrun by done.
  destruct (buildAlertComment_run (findAlerts curEntry prevEntry threshold) benchName
              curEntry prevEntry threshold ccUsers w) as (r & Hbuild & Hr).
  unfold bind at 1 in Hrun. rewrite Hbuild in Hrun. cbv beta in Hrun.
  destruct context_repository as [repo|] eqn:Hrepo.
  2:{ left. rewrite Hr in Hrun. by injection Hrun. }
  destruct Hr as (heading & footer & ->).
  destruct shouldComment.
  - destruct (truthy token) as [tok|] eqn:Htoken; [|left; by injection Hrun].
    right. eexists tok, repo, _. do 5 (split; [done|]).
    unfold bind in Hrun. rewrite (leaveComment_run _ _ _ repo) in Hrun by done.
    unfold createCommitComment in Hrun. destruct (outcome _ w).
    + by injection Hrun.
    + destruct shouldFail; by injection Hrun.
  - left. unfold bind, ret in Hrun. destruct shouldFail; by injection Hrun.
Qed.

(** X10. Fail-on-alert cannot be talked out of failing: when it is set and
    there is an alert, the alert step never returns, whatever the comment
    flag, the token, the repository and the comment API do. *)
Theorem alert_fails_when_asked (benchName : string) (curEntry prevEntry : Benchmark.t)
    (threshold : number) (token : option string) (shouldComment : bool)
    (ccUsers : list string) (w : World) :
  findAlerts curEntry prevEntry threshold ≠ [] →
  ∃ e w', alert benchName curEntry prevEntry threshold token
                shouldComment true ccUsers w = (Throw e, w').
Proof.
  intros Halerts. rewrite alert_reporting by (done || apply orb_true_r).
  destruct (buildAlertComment_run (findAlerts curEntry prevEntry threshold) benchName
              curEntry prevEntry threshold ccUsers w) as (r & Hbuild & Hr).
  unfold bind at 1. rewrite Hbuild. cbv beta.
  destruct context_repository as [repo|] eqn:Hrepo; [|rewrite Hr; by eexists _, _].
  destruct Hr as (heading & footer & ->).
  destruct shouldComment; [|by eexists _, _].
  destruct (truthy token) as [tok|]; [|by eexists _, _].
  unfold bind. rewrite (leaveComment_run _ _ _ repo) by done.
  unfold createCommitComment. destruct (outcome _ w); by eexists _, _.
Qed.

(** X11. The failure of fail-on-alert carries the report: the alert step
    throws its own error only when fail-on-alert is set and there is an
    alert, and the message of that error starts with the report that was
    built; it is the report itself when no comment was asked for. *)
Theorem alert_error_is_report (benchName : string) (curEntry prevEntry : Benchmark.t)
    (threshold : number) (token : option string) (shouldComment shouldFail : bool)
    (ccUsers : list string) (w w' : World) (message : string) :
  alert benchName curEntry prevEntry threshold token shouldComment shouldFail ccUsers w
    = (Throw (AlertError message), w') →
  shouldFail = true ∧
  findAlerts curEntry prevEntry threshold ≠ [] ∧
  ∃ body,
    buildAlertComment (findAlerts curEntry prevEntry threshold) benchName
                      curEntry prevEntry threshold ccUsers w = (Ok body, w) ∧
    Js.startsWith body message = true ∧
    (shouldComment = false → message = body ∧ w' = w).
Proof.
  intros Hrun.
  destruct (decide (findAlerts curEntry prevEntry threshold = [])) as [Hnone|Hsome];
    [by rewrite alert_idle in Hrun by by right|].
  destruct (shouldComment || shouldFail) eqn:Hflags;
    [|by rewrite alert_idle in Hrun by by left].
  rewrite alert_reporting in Hrun by done.
  destruct (buildAlertComment_run (findAlerts curEntry prevEntry threshold) benchName
              curEntry prevEntry threshold ccUsers w) as (r & Hbuild & Hr).
  unfold bind at 1 in Hrun. rewrite Hbuild in Hrun. cbv beta in Hrun.
  destruct context_repository as [repo|] eqn:Hrepo; [|by rewrite Hr in Hrun].
  destruct Hr as (heading & footer & ->).
  set (body := Js.join nl _) in *.
  assert (∀ s, Js.startsWith body (body +:+ s) = true) as Hstarts
    by (intros; apply startsWith_app).
  destruct shouldComment.
  - destruct (truthy token) as [tok|]; [|done].
    unfold bind in Hrun. rewrite (leaveComment_run _ _ _ repo) in Hrun by done.
    unfold createCommitComment in Hrun. destruct (outcome _ w); [done|].
    destruct shouldFail; [|done]. injection Hrun as <- _.
    split; [done|]. split; [done|]. exists body. by rewrite Hstarts.
  - unfold bind, ret in Hrun. destruct shouldFail; [|done].
    injection Hrun as <- <-.
    split; [done|]. split; [done|]. exists body. split; [done|].
    split; [|done]. rewrite <- (Hstarts EmptyString). by rewrite append_empty_r.
Qed.

End AlertMore.

(** ** The publish coordinator, step by step *)

Section PublishMore.
Context {rt : Runtime} {host : Host}.

Lemma addIndexHtmlIfNeeded_Ok_calls dir w wi :
  addIndexHtmlIfNeeded dir w = (Ok tt, wi) →
  calls wi = calls w ∨ calls wi = calls w ++ [GitCmd ["add"; path_join dir "index.html"]].
Proof.
  unfold addIndexHtmlIfNeeded, bind, tryCatch, stat, writeFile, ret.
  destruct (stat_outcome _ w); [|intros [= <-]; by left].
  destruct (writeFile_outcome _ _ w); [done|]. rewrite call_run.
  destruct (outcome _ _); [done|]. intros [= <-]. by right.
Qed.

Lemma pushGitHubPages_Ok_calls token branch w w' :
  pushGitHubPages token branch w = (Ok tt, w') →
  calls w' = calls w ++ [GitPush token branch] ∨
  calls w' = calls w ++ [GitPush token branch;
                         GitPull (Some token) branch ["--rebase"];
                         GitPush token branch].
Proof.
  unfold pushGitHubPages, bind, tryCatch. rewrite call_run.
  destruct (outcome _ w) as [e|]; [|intros [= <-]; by left].
  destruct (isRemoteRejected _); [|done]. unfold ret. rewrite call_run.
  destruct (outcome _ _); [done|]. rewrite call_run.
  destruct (outcome _ _); [done|]. intros [= <-]. right.
  cbn [happened calls]. by rewrite <- !app_assoc.
Qed.

(** The calls of the alert step: none, or one comment, which takes
    comment-on-alert. *)
Lemma alert_calls benchName cur prv th token shouldComment shouldFail cc w :
  ∃ cs,
    calls (alert benchName cur prv th token shouldComment shouldFail cc w).2
    = calls w ++ cs ∧
    (cs = [] ∨ ∃ c, shouldComment = true ∧ isComment c = true ∧ cs = [c]).
Proof.
  assert (∀ w', calls w' = calls w → ∃ cs, calls w' = calls w ++ cs ∧
            (cs = [] ∨ ∃ c, shouldComment = true ∧ isComment c = true ∧ cs = [c]))
    as Hnone.
  { intros w' ->. exists []. split; [by rewrite app_nil_r|by left]. }
  destruct (decide (findAlerts cur prv th = [])) as [Hno|Hsome];
    [rewrite alert_idle by (by right); by apply Hnone|].
  destruct (shouldComment || shouldFail) eqn:Hflags;
    [|rewrite alert_idle by (by left); by apply Hnone].
  rewrite alert_reporting by done.
  destruct (buildAlertComment_run (findAlerts cur prv th) benchName cur prv th cc w)
    as (r & Hbuild & Hr).
  unfold bind at 1. rewrite Hbuild. cbv beta.
  destruct context_repository as [repo|] eqn:Hrepo; [|rewrite Hr; by apply Hnone].
  destruct Hr as (heading & footer & ->).
  destruct shouldComment.
  - destruct (truthy token) as [tok|]; [|by apply Hnone].
    unfold bind. rewrite (leaveComment_run _ _ _ repo) by done.
    unfold createCommitComment.
    eexists [_]. split.
    + destruct (outcome _ w); [reflexivity|]. destruct shouldFail; reflexivity.
    + right. eexists. split; [done|]. split; [|reflexivity]. done.
  - unfold bind, ret. destruct shouldFail; by apply Hnone.
Qed.

(** X12. What is staged is the merge: when the update returns, [git add]
    was run on a data file that holds the prefix and the text of the history
    that was loaded, with the new entry at the end of its suite, every other
    suite as loaded, and the repository URL of the payload. *)
Theorem update_stages_merge (bench : Benchmark.t) (config : Config.t)
    (w : World) (prevBench : option Benchmark.t) (w1 : World) :
  writeBenchmark_update bench config w = (Ok prevBench, w1) →
  ∃ w0 data,
    loadDataJson (dataPath config) w0 = (Ok data, w0) ∧
    let stored := storedData bench config data w0 in
    let staged := written (dataPath config) (SCRIPT_PREFIX +:+ JSON_stringify stored) w0 in
    DataJson.entries stored !! Config.name config
      = Some (default [] (DataJson.entries data !! Config.name config) ++ [bench]) ∧
    (∀ suite, suite ≠ Config.name config →
       DataJson.entries stored !! suite = DataJson.entries data !! suite) ∧
    DataJson.repoUrl stored = from_option Repository.html_url "" context_repository ∧
    files staged !! dataPath config = Some (SCRIPT_PREFIX +:+ JSON_stringify stored) ∧
    outcome (GitCmd ["add"; dataPath config]) staged = None ∧
    ∃ later, calls w1 = calls staged ++ GitCmd ["add"; dataPath config] :: later.
Proof.
  intros Hupd.
  destruct (writeBenchmark_update_Ok _ _ _ _ _ Hupd)
    as (wa & data & wi & _ & _ & Hload & Hmerge & _ & Hadd & Hindex & _ & Hpush).
  eexists _, data. split; [exact Hload|]. cbv zeta.
  apply addBenchmarkResult_Some in Hmerge as [-> _].
  split; [apply lookup_insert_eq|].
  split; [by intros suite Hsuite; rewrite lookup_insert_ne|].
  split; [done|].
  split; [apply lookup_insert_eq|].
  split; [exact Hadd|].
  destruct (emits_addIndexHtmlIfNeeded (λ _, True) (Config.benchmarkDataDirPath config)
              (λ _, I) (happened (GitCmd ["add"; dataPath config])
                          (written (dataPath config)
                             (SCRIPT_PREFIX +:+ JSON_stringify (storedData bench config data
                                (happened (MkdirP (Config.benchmarkDataDirPath config)) wa)))
                             (happened (MkdirP (Config.benchmarkDataDirPath config)) wa))))
    as (idx & Hidx & _).
  rewrite Hindex in Hidx. cbn [snd] in Hidx.
  assert (∃ pushes, calls w1 = calls (happened (commitCall bench config) wi) ++ pushes)
    as [pushes Hpushes].
  { destruct (pushToken config) as [tok|].
    - destruct (emits_pushGitHubPages tok (Config.ghPagesBranch config)
                  (happened (commitCall bench config) wi)) as (ps & Hps & _).
      rewrite Hpush in Hps. by exists ps.
    - injection Hpush as <-. exists []. by rewrite app_nil_r. }
  exists (idx ++ [commitCall bench config] ++ pushes).
  rewrite Hpushes. cbn [happened calls]. rewrite Hidx. cbn [happened calls].
  by rewrite <- !app_assoc.
Qed.

(** X13. The calls of a publish that returns, in order: the switch, the
    pull when the branch is synced first, the directory, [git add] of the
    data file, [git add] of the index page when it had to be written, the
    commit, the push (alone, or rejected once and repeated after a pull with
    rebase) when a token and auto-push are there, at most one comment, and
    the checkout. *)
Theorem writeBenchmark_success_calls (bench : Benchmark.t) (config : Config.t)
    (w w' : World) :
  writeBenchmark bench config w = (Ok tt, w') →
  ∃ idx pushes comments,
    calls w' =
      calls w ++ [switchCall config]
        ++ (if syncsFirst config then [syncCall config] else [])
        ++ [MkdirP (Config.benchmarkDataDirPath config); GitCmd ["add"; dataPath config]]
        ++ idx ++ [commitCall bench config] ++ pushes ++ comments ++ [checkoutCall] ∧
    (idx = [] ∨ idx = [GitCmd ["add"; indexPath config]]) ∧
    match pushToken config with
    | None => pushes = []
    | Some token =>
        pushes = [GitPush token (Config.ghPagesBranch config)] ∨
        pushes = [GitPush token (Config.ghPagesBranch config);
                  GitPull (Some token) (Config.ghPagesBranch config) ["--rebase"];
                  GitPush token (Config.ghPagesBranch config)]
    end ∧
    (comments = [] ∨
     ∃ c, Config.commentOnAlert config = true ∧ isComment c = true ∧ comments = [c]).
Proof.
  intros Hrun. rewrite writeBenchmark_run in Hrun.
  fold (switchCall config) checkoutCall in Hrun.
  destruct (outcome (switchCall config) w); [done|]. cbv zeta in Hrun.
  destruct (writeBenchmark_try _ _ _) as [r wt] eqn:Htry. cbn [fst snd] in Hrun.
  destruct (outcome checkoutCall wt); [done|]. injection Hrun as -> <-.
  unfold writeBenchmark_try in Htry.
  apply bind_Ok in Htry as (pb & wu & Hupd & Hcheck).
  destruct (writeBenchmark_update_Ok _ _ _ _ _ Hupd)
    as (wa & data & wi & Hsync & _ & _ & _ & _ & _ & Hindex & _ & Hpush).
  cbv zeta in Hindex.
  apply addIndexHtmlIfNeeded_Ok_calls in Hindex.
  assert (∃ comments, calls wt = calls wu ++ comments ∧
            (comments = [] ∨ ∃ c, Config.commentOnAlert config = true
                                  ∧ isComment c = true ∧ comments = [c]))
    as (comments & Hcomments & Hcomment).
  { unfold writeBenchmark_check in Hcheck. destruct pb as [p|].
    - destruct (alert_calls (Config.name config) bench p (Config.alertThreshold config)
                  (Config.githubToken config) (Config.commentOnAlert config)
                  (Config.failOnAlert config) (Config.alertCommentCcUsers config) wu)
        as (cs & Hcs & Hshape).
      rewrite Hcheck in Hcs. by exists cs.
    - injection Hcheck as <-. exists []. split; [by rewrite app_nil_r|by left]. }
  assert (calls wa = calls (happened (switchCall config) w)
                     ++ (if syncsFirst config then [syncCall config] else [])) as Hwa.
  { destruct (syncsFirst config).
    - by destruct Hsync as [_ ->].
    - subst wa. by rewrite app_nil_r. }
  assert (∃ pushes, calls wu = calls wi ++ [commitCall bench config] ++ pushes ∧
            match pushToken config with
            | None => pushes = []
            | Some token =>
                pushes = [GitPush token (Config.ghPagesBranch config)] ∨
                pushes = [GitPush token (Config.ghPagesBranch config);
                          GitPull (Some token) (Config.ghPagesBranch config) ["--rebase"];
                          GitPush token (Config.ghPagesBranch config)]
            end) as (pushes & Hwu & Hpushes).
  { destruct (pushToken config) as [tok|].
    - destruct (pushGitHubPages_Ok_calls _ _ _ _ Hpush) as [E|E];
        eexists; (split; [rewrite E; cbn [happened calls]; by rewrite <- app_assoc|]);
        [by left|by right].
    - injection Hpush as <-. exists []. split; [done|done]. }
  cbn [happened calls written] in Hindex, Hwa.
  destruct Hindex as [Hwi|Hwi].
  - exists [], pushes, comments. split; [|by split; [left|split]].
    cbn [happened calls]. rewrite Hcomments, Hwu, Hwi, Hwa.
    rewrite <- !app_assoc. done.
  - exists [GitCmd ["add"; indexPath config]], pushes, comments.
    split; [|by split; [right|split]].
    cbn [happened calls]. rewrite Hcomments, Hwu, Hwi, Hwa.
    rewrite <- !app_assoc. done.
Qed.

(** X14. A first publish has no baseline: when the working copy has no
    readable data file and no collaborator creates one, a returning update
    hands over no baseline, and the [try] block ends there, with no alert
    step whatever the alert options are. *)
Theorem first_publish_checks_nothing (bench : Benchmark.t) (config : Config.t)
    (w : World) (prevBench : option Benchmark.t) (w1 : World) :
  (∀ c w0, files w0 !! dataPath config = None →
           tree_after c w0 !! dataPath config = None) →
  files w !! dataPath config = None →
  writeBenchmark_update bench config w = (Ok prevBench, w1) →
  prevBench = None ∧ writeBenchmark_try bench config w = (Ok tt, w1).
Proof.
  intros Hhost Hnone Hupd.
  destruct (writeBenchmark_update_Ok _ _ _ _ _ Hupd)
    as (wa & data & wi & Hsync & _ & Hload & Hpb & _).
  cbv zeta in Hload.
  assert (files wa !! dataPath config = None) as Hwa.
  { destruct (syncsFirst config); [|by subst wa].
    destruct Hsync as [_ ->]. by apply Hhost. }
  rewrite loadDataJson_run in Hload. cbn [happened files] in Hload.
  rewrite (Hhost _ _ Hwa) in Hload. injection Hload as <-.
  apply addBenchmarkResult_Some in Hpb as [_ ->].
  cbn [emptyDataJson DataJson.entries]. rewrite lookup_empty.
  split; [done|]. unfold writeBenchmark_try, bind. by rewrite Hupd.
Qed.

(** *** Which calls a publish can make *)

Lemma bind_extends {A B} (m : M A) (k : A → M B) :
  (∀ a, emits (λ _, True) (k a)) →
  ∀ w, ∃ cs, calls (bind m k w).2 = calls (m w).2 ++ cs.
Proof.
  intros Hk w. unfold bind. destruct (m w) as [[a|e] w1]; cbn [snd].
  - destruct (Hk a w1) as (cs & Hcs & _). by exists cs.
  - exists []. by rewrite app_nil_r.
Qed.

Lemma emits_pushGitHubPages_of (P : Call → Prop) token branch :
  P (GitPush token branch) →
  P (GitPull (Some token) branch ["--rebase"]) →
  emits P (pushGitHubPages token branch).
Proof.
  intros Hpush Hpull. unfold pushGitHubPages.
  apply emits_bind.
  - apply emits_tryCatch.
    + apply emits_bind; [by apply emits_call|intros; apply emits_ret].
    + intros e. destruct (isRemoteRejected e); [apply emits_ret|apply emits_throw].
  - intros [|]; [|apply emits_ret].
    apply emits_bind; [by apply emits_call|intros; by apply emits_call].
Qed.

Lemma emits_alert_of (P : Call → Prop) benchName cur prv th token shouldComment shouldFail cc :
  (shouldComment = true → ∀ c, isComment c = true → P c) →
  emits P (alert benchName cur prv th token shouldComment shouldFail cc).
Proof.
  intros HP w.
  destruct (alert_calls benchName cur prv th token shouldComment shouldFail cc w)
    as (cs & Hcs & [->|(c & Hflag & Hc & ->)]).
  - by exists [].
  - exists [c]. split; [done|]. constructor; [by apply HP|constructor].
Qed.

(** The calls of a publish come from its text: each of them satisfies [P]
    as soon as the calls written there do, under the conditions written
    there. *)
Lemma emits_writeBenchmark_of (P : Call → Prop) bench config :
  P (switchCall config) →
  P checkoutCall →
  (syncsFirst config = true → P (syncCall config)) →
  P (MkdirP (Config.benchmarkDataDirPath config)) →
  (∀ path, P (GitCmd ["add"; path])) →
  P (commitCall bench config) →
  (∀ token, pushToken config = Some token →
     P (GitPush token (Config.ghPagesBranch config)) ∧
     P (GitPull (Some token) (Config.ghPagesBranch config) ["--rebase"])) →
  (Config.commentOnAlert config = true → ∀ c, isComment c = true → P c) →
  emits P (writeBenchmark bench config).
Proof.
  intros Hswitch Hcheckout Hsync Hmkdir Hadd Hcommit Hpush Hcomment.
  unfold writeBenchmark.
  apply emits_bind; [by apply emits_call|intros _].
  apply emits_tryFinally; [|by apply emits_call].
  unfold writeBenchmark_try. apply emits_bind.
  - unfold writeBenchmark_update. cbv zeta. rewrite push_step.
    fold (syncsFirst config) (dataPath config) (syncCall config) (commitCall bench config).
    apply emits_bind; [|intros _].
    { destruct (syncsFirst config); [apply emits_call; by apply Hsync|apply emits_ret]. }
    apply emits_bind; [by apply emits_call|intros _].
    apply emits_bind; [apply emits_loadDataJson|intros data].
    apply emits_bind; [apply emits_now|intros t].
    destruct (addBenchmarkResult _ _ _) as [[entries pb]|]; [|apply emits_throw].
    apply emits_bind; [apply emits_storeDataJson|intros _].
    apply emits_bind; [by apply emits_call|intros _].
    apply emits_bind; [by apply emits_addIndexHtmlIfNeeded|intros _].
    apply emits_bind; [by apply emits_call|intros _].
    apply emits_bind; [|intros _; apply emits_ret].
    destruct (pushToken config) as [tok|] eqn:Htok; [|apply emits_ret].
    destruct (Hpush tok eq_refl). by apply emits_pushGitHubPages_of.
  - intros [p|]; [|apply emits_ret]. by apply emits_alert_of.
Qed.

(** X15. The sync is an option: when skip-fetch is set, or the repository is
    private and there is no token, no publish makes a plain pull; otherwise
    the plain pull, with the token as it is, is the first call after a
    switch that went through. *)
Theorem sync_pull_is_conditional (bench : Benchmark.t) (config : Config.t) (w : World) :
  (Config.skipFetchGhPages config = true ∨
   (from_option Repository.private false context_repository = true ∧
    truthy (Config.githubToken config) = None) →
   ∃ cs, calls (writeBenchmark bench config w).2 = calls w ++ cs ∧
         Forall (λ c, isPlainPull c = false) cs) ∧
  (Config.skipFetchGhPages config = false →
   (from_option Repository.private false context_repository = false ∨
    is_Some (truthy (Config.githubToken config))) →
   outcome (switchCall config) w = None →
   ∃ cs, calls (writeBenchmark bench config w).2
         = calls w ++ switchCall config :: syncCall config :: cs).
Proof.
  split.
  - intros Hoff.
    assert (syncsFirst config = false) as Hsync.
    { unfold syncsFirst. destruct Hoff as [->|[-> ->]]; [done|].
      cbn [negb orb]. rewrite bool_decide_eq_false_2; [apply andb_false_r|].
      by intros [? ?]. }
    apply (emits_writeBenchmark_of (λ c, isPlainPull c = false)); try done.
    + by rewrite Hsync.
    + by intros _ [] Hc.
  - intros Hskip Hcan Hswitch.
    assert (syncsFirst config = true) as Hsync.
    { unfold syncsFirst. rewrite Hskip. cbn [negb andb].
      destruct Hcan as [->|Htok]; [done|].
      rewrite bool_decide_eq_true_2 by done. apply orb_true_r. }
    rewrite writeBenchmark_run. fold (switchCall config). rewrite Hswitch.
    cbv zeta. cbn [snd].
    set (w1 := happened (switchCall config) w).
    destruct (bind_extends (writeBenchmark_update bench config)
                (writeBenchmark_check bench config)
                (λ pb, emits_any _ _ (emits_writeBenchmark_check bench config pb)) w1)
      as (cs2 & Hcs2).
    change (bind (writeBenchmark_update bench config) (writeBenchmark_check bench config))
      with (writeBenchmark_try bench config) in Hcs2.
    assert (∃ cs1, calls (writeBenchmark_update bench config w1).2
                   = calls (call (syncCall config) w1).2 ++ cs1) as (cs1 & Hcs1).
    { unfold writeBenchmark_update. cbv zeta.
      fold (syncsFirst config) (syncCall config). rewrite Hsync.
      apply bind_extends. intros _.
      repeat first
        [ apply emits_ret | apply emits_throw | apply emits_loadDataJson | apply emits_now
        | apply emits_storeDataJson | by apply emits_call
        | by apply emits_addIndexHtmlIfNeeded
        | by apply emits_pushGitHubPages_of
        | apply emits_bind; [|intros ?]
        | match goal with
          | |- emits _ (let '(_, _) := ?x in _) => destruct x
          | |- emits _ (match ?x with _ => _ end) => destruct x
          | |- emits _ (if ?b then _ else _) => destruct b
          end ]. }
    rewrite call_run in Hcs1. cbn [snd happened calls] in Hcs1.
    exists (cs1 ++ cs2 ++ [checkoutCall]).
    cbn [happened calls]. rewrite Hcs2, Hcs1. subst w1. cbn [happened calls].
    by rewrite <- !app_assoc.
Qed.

(** X16. The push is an option: without a token, or without auto-push, no
    publish makes a push, nor the pull with rebase that retries one. *)
Theorem push_is_conditional (bench : Benchmark.t) (config : Config.t) (w : World) :
  truthy (Config.githubToken config) = None ∨ Config.autoPush config = false →
  ∃ cs, calls (writeBenchmark bench config w).2 = calls w ++ cs ∧
        Forall (λ c, isPush c = false ∧ isRebase c = false) cs.
Proof.
  intros Hoff.
  assert (pushToken config = None) as Hpush.
  { unfold pushToken. destruct Hoff as [->| ->]; [done|]. by destruct (truthy _). }
  apply (emits_writeBenchmark_of (λ c, isPush c = false ∧ isRebase c = false)); try done.
  - intros tok Htok. by rewrite Hpush in Htok.
  - by intros _ [] Hc.
Qed.

(** X17. The comment comes last: in every run of the [try] block the calls
    of the update come first, and a comment, if any, is one call after them,
    made once the update has returned with a baseline, so after its commit
    and its push. *)
Theorem comment_follows_update (bench : Benchmark.t) (config : Config.t) (w : World) :
  ∃ us cs,
    calls (writeBenchmark_try bench config w).2 = calls w ++ us ++ cs ∧
    Forall (λ c, isUpdateCall c = true) us ∧
    (cs = [] ∨
     ∃ c prevBench wu,
       cs = [c] ∧ isComment c = true ∧
       writeBenchmark_update bench config w = (Ok (Some prevBench), wu) ∧
       calls wu = calls w ++ us ∧
       commitCall bench config ∈ us).
Proof.
  destruct (emits_writeBenchmark_update bench config w) as (us & Hus & Hupdate).
  unfold writeBenchmark_try, bind.
  destruct (writeBenchmark_update bench config w) as [[pb|e] wu] eqn:Hupd; cbn [snd] in Hus.
  - destruct pb as [p|]; cbn [writeBenchmark_check].
    + destruct (alert_calls (Config.name config) bench p (Config.alertThreshold config)
                  (Config.githubToken config) (Config.commentOnAlert config)
                  (Config.failOnAlert config) (Config.alertCommentCcUsers config) wu)
        as (cs & Hcs & Hshape).
      exists us, cs. split; [by rewrite Hcs, Hus, <- app_assoc|]. split; [done|].
      destruct Hshape as [->|(c & _ & Hc & ->)]; [by left|right].
      exists c, p, wu. do 4 (split; [done|]).
      destruct (makes_commit bench config _ _ _ Hupd) as (before & after & Hcommit).
      rewrite Hus in Hcommit. apply app_inv_head in Hcommit as ->.
      apply elem_of_app. right. apply elem_of_cons. by left.
    + exists us, []. rewrite app_nil_r. by split; [|split; [|left]].
  - exists us, []. rewrite app_nil_r. by split; [|split; [|left]].
Qed.

(** *** Which files a publish can write *)

Section Keeps.
Context (path : string).
Hypothesis host_keeps : ∀ c w, tree_after c w !! path = files w !! path.

Lemma keeps_silent {A} (m : M A) : (∀ w, files (m w).2 = files w) → keeps path m.
Proof. intros H w. by rewrite H. Qed.

Lemma keeps_ret {A} (a : A) : keeps path (ret a).
Proof. by apply keeps_silent. Qed.

Lemma keeps_throw {A} e : keeps path (throw (A:=A) e).
Proof. by apply keeps_silent. Qed.

Lemma keeps_bind {A B} (m : M A) (k : A → M B) :
  keeps path m → (∀ a, keeps path (k a)) → keeps path (bind m k).
Proof.
  intros Hm Hk w. unfold bind. specialize (Hm w).
  destruct (m w) as [[a|e] w1]; cbn [snd] in *; [|done].
  by rewrite Hk.
Qed.

Lemma keeps_tryCatch {A} (body : M A) (handler : thrown → M A) :
  keeps path body → (∀ e, keeps path (handler e)) → keeps path (tryCatch body handler).
Proof.
  intros Hm Hk w. unfold tryCatch. specialize (Hm w).
  destruct (body w) as [[a|e] w1]; cbn [snd] in *; [done|].
  by rewrite Hk.
Qed.

Lemma keeps_tryFinally {A} (body : M A) (cleanup : M unit) :
  keeps path body → keeps path cleanup → keeps path (tryFinally body cleanup).
Proof.
  intros Hm Hk w. unfold tryFinally. specialize (Hm w).
  destruct (body w) as [r w1]; cbn [snd] in *. specialize (Hk w1).
  destruct (cleanup w1) as [[[]|e] w2]; cbn [snd] in *; by rewrite Hk.
Qed.

Lemma keeps_call c : keeps path (call c).
Proof using All. intros w. rewrite call_run. cbn [snd happened files]. apply host_keeps. Qed.

Lemma keeps_createCommitComment c : keeps path (createCommitComment c).
Proof using All.
  intros w. unfold createCommitComment.
  destruct (outcome c w); cbn [snd happened files]; apply host_keeps.
Qed.

Lemma keeps_writeFile other content : other ≠ path → keeps path (writeFile other content).
Proof.
  intros Hother w. unfold writeFile.
  destruct (writeFile_outcome _ _ w); cbn [snd failedWrite files].
  - destruct (writeFile_leaves _ _ w); [by rewrite lookup_insert_ne|].
    by rewrite lookup_delete_ne.
  - by rewrite lookup_insert_ne.
Qed.

Lemma keeps_stat p : keeps path (stat p).
Proof. apply keeps_silent. intros w. unfold stat. by destruct (stat_outcome p w). Qed.

Lemma keeps_loadDataJson p : keeps path (loadDataJson p).
Proof. apply keeps_silent. intros w. by rewrite loadDataJson_run. Qed.

Lemma keeps_getCurrentRepo : keeps path getCurrentRepo.
Proof. unfold getCurrentRepo. destruct context_repository; [apply keeps_ret|apply keeps_throw]. Qed.

(** Goes through a computation statement by statement. *)
Ltac keeps_steps :=
  repeat first
    [ apply keeps_ret | apply keeps_throw | apply keeps_call
    | apply keeps_createCommitComment | apply keeps_stat | apply keeps_loadDataJson
    | apply keeps_getCurrentRepo | by apply keeps_silent
    | by apply keeps_writeFile
    | apply keeps_bind; [|intros ?]
    | apply keeps_tryCatch; [|intros ?]
    | match goal with
      | |- keeps _ (let '(_, _) := ?x in _) => destruct x
      | |- keeps _ (match ?x with _ => _ end) => destruct x
      | |- keeps _ (if ?b then _ else _) => destruct b
      end ].

Lemma keeps_pushGitHubPages token branch : keeps path (pushGitHubPages token branch).
Proof using All. unfold pushGitHubPages. keeps_steps. Qed.

Lemma keeps_alert benchName cur prv th token shouldComment shouldFail cc :
  keeps path (alert benchName cur prv th token shouldComment shouldFail cc).
Proof using All. unfold alert, buildAlertComment, leaveComment. keeps_steps. Qed.

(** X18. A publish writes two files at most: a file that is neither the data
    file nor the index page of the data directory, and that the
    collaborators leave alone, has after the publish the content it had
    before, however the publish ends. *)
Theorem writeBenchmark_keeps_other_files (bench : Benchmark.t) (config : Config.t)
    (w : World) :
  path ≠ dataPath config →
  path ≠ indexPath config →
  files (writeBenchmark bench config w).2 !! path = files w !! path.
Proof using All.
  intros Hdata Hindex. revert w. change (keeps path (writeBenchmark bench config)).
  unfold writeBenchmark.
  apply keeps_bind; [apply keeps_call|intros _].
  apply keeps_tryFinally; [|apply keeps_call].
  unfold writeBenchmark_try. apply keeps_bind.
  - unfold writeBenchmark_update, storeDataJson, addIndexHtmlIfNeeded. cbv zeta.
    fold (dataPath config) (indexPath config).
    pose proof keeps_pushGitHubPages.
    repeat first
      [ done
      | apply keeps_ret | apply keeps_throw | apply keeps_call | apply keeps_stat
      | apply keeps_loadDataJson
      | by apply keeps_silent
      | by apply keeps_writeFile
      | apply keeps_bind; [|intros ?]
      | apply keeps_tryCatch; [|intros ?]
      | match goal with
        | |- keeps _ (let '(_, _) := ?x in _) => destruct x
        | |- keeps _ (match ?x with _ => _ end) => destruct x
        | |- keeps _ (if ?b then _ else _) => destruct b
        end ].
  - intros [p|]; [apply keeps_alert|apply keeps_ret].
Qed.

End Keeps.

(** *** From one publish to the next *)

(** The data file, as a returning update leaves it when the collaborators
    do not touch it: the text that was staged. *)
Lemma writeBenchmark_update_leaves bench config w prevBench w1 :
  (∀ c w0, tree_after c w0 !! dataPath config = files w0 !! dataPath config) →
  indexPath config ≠ dataPath config →
  writeBenchmark_update bench config w = (Ok prevBench, w1) →
  ∃ w0 data,
    loadDataJson (dataPath config) w0 = (Ok data, w0) ∧
    files w0 !! dataPath config = files w !! dataPath config ∧
    addBenchmarkResult (Config.name config) bench (DataJson.entries data)
      = Some (DataJson.entries (storedData bench config data w0), prevBench) ∧
    files w1 !! dataPath config
    = Some (SCRIPT_PREFIX +:+ JSON_stringify (storedData bench config data w0)).
Proof.
  intros Hhost Hindex Hupd.
  destruct (writeBenchmark_update_Ok _ _ _ _ _ Hupd)
    as (wa & data & wi & Hsync & _ & Hload & Hpb & _ & _ & Hidx & _ & Hpush).
  cbv zeta in *.
  eexists _, data. split; [exact Hload|]. split; [|split; [exact Hpb|]].
  - cbn [happened files]. rewrite Hhost.
    destruct (syncsFirst config); [|by subst wa].
    destruct Hsync as [_ ->]. cbn [happened files]. apply Hhost.
  - assert (files w1 !! dataPath config
            = files (happened (commitCall bench config) wi) !! dataPath config) as ->.
    { destruct (pushToken config) as [tok|]; [|by injection Hpush as <-].
      pose proof (keeps_pushGitHubPages (dataPath config) Hhost tok
                    (Config.ghPagesBranch config)
                    (happened (commitCall bench config) wi)) as Hkeeps.
      by rewrite Hpush in Hkeeps. }
    cbn [happened files]. rewrite Hhost.
    assert (keeps (dataPath config)
              (addIndexHtmlIfNeeded (Config.benchmarkDataDirPath config))) as Hkeeps.
    { unfold addIndexHtmlIfNeeded. fold (indexPath config).
      apply keeps_bind.
      - apply keeps_tryCatch; [|intros; apply keeps_ret].
        apply keeps_bind; [apply keeps_stat|intros; apply keeps_ret].
      - intros [|]; [apply keeps_ret|].
        apply keeps_bind; [by apply keeps_writeFile|intros _].
        by apply keeps_call. }
    specialize (Hkeeps (happened (GitCmd ["add"; dataPath config])
                          (written (dataPath config)
                             (SCRIPT_PREFIX +:+ JSON_stringify
                                (storedData bench config data
                                   (happened (MkdirP (Config.benchmarkDataDirPath config)) wa)))
                             (happened (MkdirP (Config.benchmarkDataDirPath config)) wa)))).
    rewrite Hidx in Hkeeps. cbn [snd] in Hkeeps. rewrite Hkeeps.
    cbn [happened files]. rewrite Hhost. cbn [written files].
    apply lookup_insert_eq.
Qed.

(** X19. The history carries over: when the collaborators leave the data
    file alone and the index page is another file, a returning update leaves
    in the data file the text of a history such that, if [JSON.parse] reads
    that text back, the next update for the suite on a working copy with
    that data file gets as its baseline the entry just published when the
    commit ids differ, and the baseline that entry had when they are the
    same. *)
Theorem next_publish_baseline (first second : Benchmark.t) (config : Config.t)
    (w wu : World) (baseline : option Benchmark.t) :
  (∀ c w0, tree_after c w0 !! dataPath config = files w0 !! dataPath config) →
  indexPath config ≠ dataPath config →
  writeBenchmark_update first config w = (Ok baseline, wu) →
  ∃ stored,
    files wu !! dataPath config = Some (SCRIPT_PREFIX +:+ JSON_stringify stored) ∧
    (JSON_parse (JSON_stringify stored) = Some stored →
     ∀ w' wu' baseline',
       files w' !! dataPath config = files wu !! dataPath config →
       writeBenchmark_update second config w' = (Ok baseline', wu') →
       (sameCommit second first → baseline' = baseline) ∧
       (¬ sameCommit second first → baseline' = Some first)).
Proof.
  intros Hhost Hindex Hfirst.
  destruct (writeBenchmark_update_leaves _ _ _ _ _ Hhost Hindex Hfirst)
    as (w0 & data & _ & _ & Hmerge & Hstored).
  eexists. split; [exact Hstored|].
  intros Hjson w' wu' baseline' Hsame Hsecond.
  destruct (writeBenchmark_update_leaves _ _ _ _ _ Hhost Hindex Hsecond)
    as (w0' & data' & Hload' & Hfile' & Hmerge' & _).
  rewrite loadDataJson_run, Hfile', Hsame, Hstored, slice_app, Hjson in Hload'.
  injection Hload' as <-.
  eapply addBenchmarkResult_next; [exact Hmerge|exact Hmerge'].
Qed.

End PublishMore.

(** ** The report: its last line *)

Section ReportMore.
Context {rt : Runtime} {host : Host}.

Lemma append_assoc (a b c : string) : (a +:+ b) +:+ c = a +:+ b +:+ c.
Proof.
  induction a as [|x a IH]; [done|].
  change (String x ((a +:+ b) +:+ c) = String x (a +:+ b +:+ c)). by rewrite IH.
Qed.

Lemma join_snoc (sep : string) (xs : list string) (x : string) :
  xs ≠ [] → Js.join sep (xs ++ [x]) = Js.join sep xs +:+ sep +:+ x.
Proof.
  induction xs as [|a xs IH]; [done|]. intros _.
  destruct xs as [|b xs]; [done|].
  change (a +:+ sep +:+ Js.join sep ((b :: xs) ++ [x])
          = (a +:+ sep +:+ Js.join sep (b :: xs)) +:+ sep +:+ x).
  rewrite IH by done. by rewrite !append_assoc.
Qed.

(** X20. How a report ends: without users to notify, on the footer with
    the link to the workflow runs of the repository; with users, on a line
    "CC:" that lists them, separated by spaces. *)
Theorem report_last_line (alerts : list Alert.t) (benchName : string)
    (curEntry prevEntry : Benchmark.t) (threshold : number) (cc : list string)
    (w w' : World) (body : string) :
  buildAlertComment alerts benchName curEntry prevEntry threshold cc w = (Ok body, w') →
  ∃ repo before,
    context_repository = Some repo ∧
    body = before +:+ nl +:+
           match cc with
           | [] => footerLine repo
           | _ :: _ => "CC: " +:+ Js.join " " cc
           end.
Proof.
  unfold buildAlertComment, getCurrentRepo, bind, ret. cbv zeta.
  destruct context_repository as [repo|]; [|done].
  fold (footerLine repo). intros [= <- _]. exists repo.
  destruct cc as [|user cc].
  - rewrite bool_decide_eq_false_2 by (cbn; lia).
    match goal with
    | |- ∃ before, _ ∧ Js.join nl (?ls ++ [?blank; ?last]) = _ =>
        exists (Js.join nl (ls ++ [blank])); split; [done|];
        change (ls ++ [blank; last]) with (ls ++ [blank] ++ [last]);
        rewrite (app_assoc ls [blank] [last])
    end.
    apply join_snoc. by intros [? ?]%app_eq_nil.
  - rewrite bool_decide_eq_true_2 by (cbn; lia).
    match goal with
    | |- ∃ before, _ ∧ Js.join nl (?ls ++ [?blank; ?last]) = _ =>
        exists (Js.join nl (ls ++ [blank])); split; [done|];
        change (ls ++ [blank; last]) with (ls ++ [blank] ++ [last]);
        rewrite (app_assoc ls [blank] [last])
    end.
    apply join_snoc. by intros [? ?]%app_eq_nil.
Qed.

End ReportMore.

(** ** The further properties on the samples *)

(** X4 on the first two publishes of a suite, for the commits A and B. *)
Lemma consecutive_merges_witness :
  ∃ merged' baseline',
    addBenchmarkResult "suite" (Sample.entry "B" cargo 200)
      {[ "suite" := [ Sample.entry "A" cargo 100 ] ]} = Some (merged', baseline') ∧
    (sameCommit (Sample.entry "B" cargo 200) (Sample.entry "A" cargo 100) →
       baseline' = None) ∧
    (¬ sameCommit (Sample.entry "B" cargo 200) (Sample.entry "A" cargo 100) →
       baseline' = Some (Sample.entry "A" cargo 100)).
Proof.
  apply (consecutive_merges "suite" (Sample.entry "A" cargo 100)
           (Sample.entry "B" cargo 200) ∅).
  reflexivity.
Defined.

(** X21 on three publishes into the default history. *)
Lemma merge_is_append_only_witness :
  let entries := DataJson.entries emptyDataJson in
  let bs := [ Sample.entry "A" cargo 100; Sample.entry "B" cargo 100;
              Sample.entry "C" cargo 200 ] in
  ∃ merged prevBench all,
    addBenchmarkResult "suite" (Sample.entry "A" cargo 100) entries
      = Some (merged, prevBench) ∧
    mergeAll "suite" bs entries = Some all ∧
    merged !! "suite" = Some (default [] (entries !! "suite") ++ [Sample.entry "A" cargo 100]) ∧
    (∀ n, n ≠ "suite" → merged !! n = entries !! n) ∧
    default [] (all !! "suite") = default [] (entries !! "suite") ++ bs ∧
    (entries !! "suite" = None →
       default [] (all !! "suite") = bs ∧ length (default [] (all !! "suite")) = length bs) ∧
    (∀ n, n ≠ "suite" → all !! n = entries !! n).
Proof.
  apply (merge_is_append_only "suite" (Sample.entry "A" cargo 100)
           [ Sample.entry "A" cargo 100; Sample.entry "B" cargo 100;
             Sample.entry "C" cargo 200 ] (DataJson.entries emptyDataJson)).
  right. intros Hin%inherited_elem_of. vm_compute in Hin. discriminate Hin.
Defined.

(** X3 on a measurement that went from 0 to 200. *)
Lemma zero_baseline_alerts_witness :
  {| Alert.current := Replay.fib 200; Alert.prev := Replay.fib 0;
     Alert.ratio := infinity |}
    ∈ findAlerts (Sample.entry "B" cargo 200) (Sample.entry "A" cargo 0) 1.5.
Proof.
  apply (zero_baseline_alerts (Sample.entry "B" cargo 200) (Sample.entry "A" cargo 0)
           1.5 (Replay.fib 200) (Replay.fib 0)).
  - reflexivity.
  - apply list_elem_of_singleton. reflexivity.
  - reflexivity.
  - reflexivity.
  - vm_compute. reflexivity.
  - vm_compute. reflexivity.
Defined.

(** X5 on a data file of twelve characters. *)
Lemma loadDataJson_short_file_witness :
  loadDataJson (rt:=Sample.runtime) (host:=Sample.calm) "dev/bench/data.js" Replay.cutOff
  = (Ok emptyDataJson, Replay.cutOff).
Proof.
  apply (loadDataJson_short_file (rt:=Sample.runtime) (host:=Sample.calm)
           "dev/bench/data.js" "window.BENCH").
  - reflexivity.
  - reflexivity.
  - vm_compute. lia.
Defined.

(** X8 on a host without repository, with a token and both flags set. *)
Lemma alert_needs_repository_witness :
  alert (rt:=Sample.runtime) (host:=Replay.anonymous) "suite"
    (Sample.entry "C" cargo 200) (Sample.entry "B" cargo 100) 1.5
    (Some "token") true true [] Sample.fresh
  = (Throw (NoRepositoryError "{}"), Sample.fresh).
Proof.
  apply (alert_needs_repository (rt:=Sample.runtime) (host:=Replay.anonymous)).
  - reflexivity.
  - reflexivity.
  - vm_compute. discriminate.
Defined.

(** X10 on the sample report, with a comment that is posted. *)
Lemma alert_fails_when_asked_witness :
  ∃ e w',
    alert (rt:=Sample.runtime) (host:=Sample.calm) "suite"
      (Sample.entry "C" cargo 200) (Sample.entry "B" cargo 100) 1.5
      (Some "token") true true [] Sample.fresh
    = (Throw e, w').
Proof.
  apply (alert_fails_when_asked (rt:=Sample.runtime) (host:=Sample.calm)).
  vm_compute. discriminate.
Defined.

(** X11 on the sample report, thrown as it is. *)
Lemma alert_error_is_report_witness :
  ∃ body,
    buildAlertComment (rt:=Sample.runtime) (host:=Sample.calm)
      (findAlerts (Sample.entry "C" cargo 200) (Sample.entry "B" cargo 100) 1.5)
      "suite" (Sample.entry "C" cargo 200) (Sample.entry "B" cargo 100) 1.5 []
      Sample.fresh = (Ok body, Sample.fresh) ∧
    Js.startsWith body Replay.report = true ∧
    (false = false → Replay.report = body ∧ Sample.fresh = Sample.fresh).
Proof.
  edestruct (alert_error_is_report (rt:=Sample.runtime) (host:=Sample.calm) "suite"
               (Sample.entry "C" cargo 200) (Sample.entry "B" cargo 100) 1.5
               None false true [] Sample.fresh Sample.fresh Replay.report)
    as (_ & _ & Hbody).
  - vm_compute. reflexivity.
  - exact Hbody.
Defined.

(** X12 on a publish of commit C over the sample history. *)
Lemma update_stages_merge_witness :
  ∃ w0 data,
    loadDataJson (rt:=Sample.runtime) (host:=Sample.calm) "dev/bench/data.js" w0
      = (Ok data, w0) ∧
    DataJson.entries (storedData (host:=Sample.calm) (Sample.entry "C" cargo 200)
                        Sample.config data w0) !! "suite"
      = Some (default [] (DataJson.entries data !! "suite") ++ [Sample.entry "C" cargo 200]).
Proof.
  edestruct (update_stages_merge (rt:=Sample.runtime) (host:=Sample.calm)
               (Sample.entry "C" cargo 200) Sample.config (Sample.world Sample.history))
    as (w0 & data & Hload & Hsuite & _).
  - vm_compute. reflexivity.
  - exists w0, data. split; [exact Hload|exact Hsuite].
Defined.

(** X13 on a publish of commit D over the sample history. *)
Lemma writeBenchmark_success_calls_witness :
  ∃ w' idx pushes comments,
    calls w' =
      [] ++ [GitCmd ["switch"; "gh-pages"]]
        ++ [GitPull (Some "token") "gh-pages" []]
        ++ [MkdirP "dev/bench"; GitCmd ["add"; "dev/bench/data.js"]]
        ++ idx ++ [GitCmd ["commit"; "-m"; "add suite (cargo) benchmark result for D"]]
        ++ pushes ++ comments ++ [GitCmd ["checkout"; "-"]].
Proof.
  edestruct (writeBenchmark_success_calls (rt:=Sample.runtime) (host:=Sample.calm)
               (Sample.entry "D" cargo 200) Sample.config (Sample.world Sample.history))
    as (idx & pushes & comments & Hcalls & _).
  - vm_compute. reflexivity.
  - eexists _, idx, pushes, comments. exact Hcalls.
Defined.

(** X14 on a working copy without data file. *)
Lemma first_publish_checks_nothing_witness :
  ∃ w1,
    writeBenchmark_try (rt:=Sample.runtime) (host:=Sample.calm)
      (Sample.entry "A" cargo 200) Sample.informational Sample.fresh = (Ok tt, w1).
Proof.
  edestruct (first_publish_checks_nothing (rt:=Sample.runtime) (host:=Sample.calm)
               (Sample.entry "A" cargo 200) Sample.informational Sample.fresh)
    as [_ Htry].
  - intros c w0 Hnone. exact Hnone.
  - reflexivity.
  - vm_compute. reflexivity.
  - eexists. exact Htry.
Defined.

(** X16 on the configuration without a token. *)
Lemma push_is_conditional_witness :
  ∃ cs,
    calls (writeBenchmark (rt:=Sample.runtime) (host:=Sample.calm)
             (Sample.entry "C" cargo 200) Sample.tokenless
             (Sample.world Sample.history)).2
    = calls (Sample.world Sample.history) ++ cs ∧
    Forall (λ c, isPush c = false ∧ isRebase c = false) cs.
Proof.
  apply (push_is_conditional (rt:=Sample.runtime) (host:=Sample.calm)).
  left. reflexivity.
Defined.

(** X18 on a file beside the data directory. *)
Lemma writeBenchmark_keeps_other_files_witness :
  files (writeBenchmark (rt:=Sample.runtime) (host:=Sample.calm)
           (Sample.entry "C" cargo 200) Sample.config
           (Sample.world Sample.history)).2 !! "README.md"
  = files (Sample.world Sample.history) !! "README.md".
Proof.
  apply (writeBenchmark_keeps_other_files (rt:=Sample.runtime) (host:=Sample.calm)
           "README.md").
  - intros c w0. reflexivity.
  - vm_compute. discriminate.
  - vm_compute. discriminate.
Defined.

(** X19 on the first publish of commit A in an empty working copy. *)
Lemma next_publish_baseline_witness :
  ∃ stored,
    files (writeBenchmark_update (rt:=Replay.runtime) (host:=Sample.calm)
             (Sample.entry "A" cargo 100) Sample.config Sample.fresh).2
      !! "dev/bench/data.js"
    = Some (SCRIPT_PREFIX +:+ Sample.stringify stored).
Proof.
  edestruct (next_publish_baseline (rt:=Replay.runtime) (host:=Sample.calm)
               (Sample.entry "A" cargo 100) (Sample.entry "B" cargo 200)
               Sample.config Sample.fresh
               (writeBenchmark_update (rt:=Replay.runtime) (host:=Sample.calm)
                  (Sample.entry "A" cargo 100) Sample.config Sample.fresh).2
               None)
    as (stored & Hfile & _).
  - intros c w0. reflexivity.
  - vm_compute. discriminate.
  - vm_compute. reflexivity.
  - eexists. exact Hfile.
Defined.

(** Two publishes in a row: the second is compared with the first. *)
Example second_publish_compares_with_first :
  (let w1 := (writeBenchmark (rt:=Replay.runtime) (host:=Sample.calm)
                (Sample.entry "A" cargo 100) Sample.config Sample.fresh).2 in
   writeBenchmark_update (rt:=Replay.runtime) (host:=Sample.calm)
     (Sample.entry "B" cargo 200) Sample.config w1).1
  = Ok (Some (Sample.entry "A" cargo 100)).
Proof. vm_compute. reflexivity. Qed.

(** A suite named [toString] that the history already has is merged into
    like any other. *)
Example own_key_is_merged :
  addBenchmarkResult "toString" (Sample.entry "B" cargo 200)
    {[ "toString" := [ Sample.entry "A" cargo 100 ] ]}
  = Some ({[ "toString" := [ Sample.entry "A" cargo 100; Sample.entry "B" cargo 200 ] ]},
          Some (Sample.entry "A" cargo 100)).
Proof. vm_compute. reflexivity. Qed.

(** A store that fails on a full disk: the publish ends on the error of the
    write, after the checkout and with nothing staged or committed, and the
    data file is left empty, so that the next load finds no history. *)
Example failed_store_loses_history :
  let publish :=
    writeBenchmark (rt:=Sample.runtime) (host:=Replay.diskFull)
      (Sample.entry "D" cargo 200) Sample.config (Sample.world Sample.history) in
  publish.1 = Throw (Rejected (ErrorObject "ENOSPC: no space left on device")) ∧
  files publish.2 !! "dev/bench/data.js" = Some EmptyString ∧
  calls publish.2 = [ GitCmd ["switch"; "gh-pages"];
                      GitPull (Some "token") "gh-pages" [];
                      MkdirP "dev/bench";
                      GitCmd ["checkout"; "-"] ] ∧
  (loadDataJson (rt:=Sample.runtime) (host:=Replay.diskFull)
     "dev/bench/data.js" publish.2).1 = Ok emptyDataJson.
Proof. cbv zeta. repeat split; by vm_compute. Qed.

(** X20 on the sample report with two users to notify. *)
Lemma report_last_line_witness :
  ∃ body repo before,
    context_repository (Host:=Sample.calm) = Some repo ∧
    body = before +:+ nl +:+ "CC: " +:+ Js.join " " ["@rhysd"; "@ktrz"].
Proof.
  edestruct (report_last_line (rt:=Sample.runtime) (host:=Sample.calm)
               (findAlerts (Sample.entry "C" cargo 200) (Sample.entry "B" cargo 100) 1.5)
               "suite" (Sample.entry "C" cargo 200) (Sample.entry "B" cargo 100) 1.5
               ["@rhysd"; "@ktrz"] Sample.fresh)
    as (repo & before & Hrepo & Hbody).
  - vm_compute. reflexivity.
  - eexists _, repo, before. split; [exact Hrepo|exact Hbody].
Defined.
